(** * Reverse: the control / event-dispatch core of [Reverse/main.cpp]

    A shallow embedding of the widget layer of the program: the hit test
    [PointInRectangle], the [Control] base class with its three concrete
    controls ([Label], [TextBox], [Button]), the [ControlContainer] registry
    with its dispatch loops, the wiring done by [UserInterface] and the
    window procedure's routing of messages to the container.

    Conventions of the embedding.
    - A [FLOAT] is an IEEE 754 binary32 value ([spec_float] at precision 24,
      maximal exponent 128); a [UINT32], [unsigned], [wchar_t] or [WPARAM] is
      a [Z] with the conversions between widths written out.
    - The container's [std::vector<Control*>] is a list of control records;
      a [Control*] is the index of the record, so that two uses of the same
      pointer see the same object.
    - Every virtual call made by the container and every callback fired is
      recorded in a ghost trace, together with the renderer calls of the
      paint methods; the trace is what "is called" and "fires" mean below. *)

From Stdlib Require Import ZArith QArith Qpower Lia Bool List Ascii String.
From Stdlib Require Import Floats.SpecFloat.
From stdpp Require Import base list.

Set Default Proof Using "Type".

(** ** Single-precision numbers *)

Module Float32.

Definition prec : Z := 24.
Definition emax : Z := 128.

Definition float : Type := spec_float.

(** [a < b] on two [float]s. *)
Definition ltb (a b : float) : bool := SFltb a b.

(** The conversion of an unsigned integer to [float] that the usual
    arithmetic conversions insert (round to nearest, ties to even). *)
Definition of_uint (n : Z) : float := binary_normalize prec emax n 0 false.

(** A literal such as [20.f]. *)
Definition lit (n : Z) : float := binary_normalize prec emax n 0 false.

(** A finite number in canonical representation (not a NaN or an
    infinity). *)
Definition finite (f : float) : bool :=
  match f with
  | S754_zero _ => true
  | S754_finite _ m e => bounded prec emax m e
  | _ => false
  end.

(** The rational a finite [float] denotes. *)
Definition to_Q (f : float) : Q :=
  match f with
  | S754_finite s m e => (inject_Z (cond_Zopp s (Zpos m)) * (2 # 1) ^ e)%Q
  | _ => 0%Q
  end.

End Float32.

(** ** Machine integers and text *)

(** [static_cast<unsigned>] of a wider or signed integer. *)
Definition to_unsigned (v : Z) : Z := (v mod 2 ^ 32)%Z.

(** [static_cast<wchar_t>] of a [WPARAM]: a 16-bit code unit. *)
Definition to_wchar_t (v : Z) : Z := (v mod 2 ^ 16)%Z.

Definition wchar_t : Type := Z.
Definition wstring : Type := list wchar_t.

(** A character literal and a wide string literal, [L"..."]. *)
Definition wchar (a : ascii) : wchar_t := Z.of_N (N_of_ascii a).
Definition L (s : string) : wstring := List.map wchar (list_ascii_of_string s).

(** The character ['\b'] and the virtual key [VK_BACK]. *)
Definition BS : wchar_t := 8%Z.
Definition VK_BACK : Z := 8%Z.

(** ** Geometry *)

Record D2D1_RECT_F : Type := RectF
  { left : Float32.float;
    top : Float32.float;
    right : Float32.float;
    bottom : Float32.float }.

Record D2D1_POINT_2U : Type := Point2U { x : Z; y : Z }.

Definition PointInRectangle (rectangle : D2D1_RECT_F) (point : D2D1_POINT_2U)
  : bool :=
  Float32.ltb (top rectangle) (Float32.of_uint (y point))
  && Float32.ltb (Float32.of_uint (y point)) (bottom rectangle)
  && Float32.ltb (left rectangle) (Float32.of_uint (x point))
  && Float32.ltb (Float32.of_uint (x point)) (right rectangle).



(** All four coordinates are finite numbers. *)
Definition finite_rect (rectangle : D2D1_RECT_F) : Prop :=
  Float32.finite (left rectangle) = true /\
  Float32.finite (top rectangle) = true /\
  Float32.finite (right rectangle) = true /\
  Float32.finite (bottom rectangle) = true.

(** ** Controls *)

Section Data.

(** [U] is the type of the closures the application hands to [WhenClick]
    and [WhenChange]. *)
Context {U : Type}.

(** A [std::function<void()>] member: the initial [[]() {}] or a
    registered closure. *)
Inductive Callback : Type :=
| NoOp
| Closure (f : U).

(** The dynamic class of a control, with the members the class adds. *)
Inductive Derived : Type :=
| IsControl
| IsLabel (_text : wstring)
| IsTextBox (_text : wstring)
| IsButton.

Record Control : Type := MkControl
  { _area : D2D1_RECT_F;
    _onHover : bool;
    _onClick : bool;
    _onFocus : bool;
    _clickEvent : Callback;
    _changeEvent : Callback;
    derived : Derived }.

Definition set_onHover (b : bool) (c : Control) : Control :=
  MkControl (_area c) b (_onClick c) (_onFocus c)
            (_clickEvent c) (_changeEvent c) (derived c).
Definition set_onClick (b : bool) (c : Control) : Control :=
  MkControl (_area c) (_onHover c) b (_onFocus c)
            (_clickEvent c) (_changeEvent c) (derived c).
Definition set_onFocus (b : bool) (c : Control) : Control :=
  MkControl (_area c) (_onHover c) (_onClick c) b
            (_clickEvent c) (_changeEvent c) (derived c).
Definition set_clickEvent (f : Callback) (c : Control) : Control :=
  MkControl (_area c) (_onHover c) (_onClick c) (_onFocus c)
            f (_changeEvent c) (derived c).
Definition set_changeEvent (f : Callback) (c : Control) : Control :=
  MkControl (_area c) (_onHover c) (_onClick c) (_onFocus c)
            (_clickEvent c) f (derived c).
Definition set_derived (d : Derived) (c : Control) : Control :=
  MkControl (_area c) (_onHover c) (_onClick c) (_onFocus c)
            (_clickEvent c) (_changeEvent c) d.

(** The text a control holds, if its class has one. *)
Definition text_of (c : Control) : option wstring :=
  match derived c with
  | IsLabel t | IsTextBox t => Some t
  | _ => None
  end.

(** Bounds and interaction flags of a control. *)
Definition shape (c : Control) : D2D1_RECT_F * bool * bool * bool :=
  (_area c, _onHover c, _onClick c, _onFocus c).

End Data.

Arguments Callback U : clear implicits.
Arguments Control U : clear implicits.

(** ** The ghost trace *)

Inductive Brush : Type :=
| buttonBorderBrush | buttonNormalBrush | buttonHoverBrush
| textBoxBorderBrush | textWriteBrush.

(** The virtual member functions of [Control], with their arguments. *)
Inductive Method : Type :=
| Paint
| OnHover (point : D2D1_POINT_2U)
| OnClick (click : D2D1_POINT_2U)
| OnFocus
| OnKeyDown (key : Z)
| OnChar (ch : wchar_t)
| LeaveClick
| LeaveHover
| LeaveFocus.

Inductive EventKind : Type := ClickEvent | ChangeEvent.

Inductive Event : Type :=
| Call (this : nat) (m : Method)          (* a member function is entered *)
| Fire (this : nat) (k : EventKind)       (* a callback member is invoked *)
| RT_BeginDraw                            (* calls on [renderTarget] *)
| RT_Clear
| RT_EndDraw
| RT_DrawTextW (text : wstring) (area : D2D1_RECT_F) (brush : Brush)
| RT_DrawRectangle (area : D2D1_RECT_F) (brush : Brush)
| RT_FillRectangle (area : D2D1_RECT_F) (brush : Brush).

(** The closures of an application: what invoking one does to the
    registered controls.  A closure reaches the controls through the
    pointers it captured; it does not call back into the container. *)
Class Closures (U : Type) : Type :=
  run_closure : U -> list (Control U) -> list (Control U).

(** The process-wide state: the objects the container's [_controls] vector
    points to, in the vector's order, and the trace so far. *)
Record World (U : Type) : Type := MkWorld
  { controls : list (Control U);
    trace : list Event }.

Arguments MkWorld {U} _ _.
Arguments controls {U} _.
Arguments trace {U} _.

(** ** Member functions *)

Section Dispatch.

Context {U : Type} `{!Closures U}.

Definition emit (e : Event) (w : World U) : World U :=
  MkWorld (controls w) (trace w ++ [e]).

(** An assignment to members of the object [this] points to. *)
Definition modify (this : nat) (f : Control U -> Control U) (w : World U)
  : World U :=
  MkWorld (alter f this (controls w)) (trace w).

Definition invoke (f : Callback U) (w : World U) : World U :=
  match f with
  | NoOp => w
  | Closure u => MkWorld (run_closure u (controls w)) (trace w)
  end.

(** [_clickEvent()] and [_changeEvent()] inside a member function. *)
Definition fire (this : nat) (k : EventKind) (w : World U) : World U :=
  match controls w !! this with
  | Some c =>
      invoke (match k with
              | ClickEvent => _clickEvent c
              | ChangeEvent => _changeEvent c
              end)
             (emit (Fire this k) w)
  | None => w
  end.

(** *** [Control] *)

Definition Control_Paint (this : nat) (w : World U) : World U :=
  emit (Call this Paint) w.

Definition Control_OnHover (this : nat) (point : D2D1_POINT_2U) (w : World U)
  : World U :=
  modify this (set_onHover true) (emit (Call this (OnHover point)) w).

Definition Control_OnClick (this : nat) (click : D2D1_POINT_2U) (w : World U)
  : World U :=
  modify this (set_onClick true) (emit (Call this (OnClick click)) w).

Definition Control_OnFocus (this : nat) (w : World U) : World U :=
  modify this (set_onFocus true) (emit (Call this OnFocus) w).

Definition Control_OnKeyDown (this : nat) (key : Z) (w : World U) : World U :=
  emit (Call this (OnKeyDown key)) w.

Definition Control_OnChar (this : nat) (ch : wchar_t) (w : World U) : World U :=
  emit (Call this (OnChar ch)) w.

Definition Control_LeaveClick (this : nat) (w : World U) : World U :=
  fire this ClickEvent
       (modify this (set_onClick false) (emit (Call this LeaveClick) w)).

Definition Control_LeaveHover (this : nat) (w : World U) : World U :=
  modify this (set_onHover false) (emit (Call this LeaveHover) w).

Definition Control_LeaveFocus (this : nat) (w : World U) : World U :=
  modify this (set_onFocus false) (emit (Call this LeaveFocus) w).

Definition Control_IsHover (c : Control U) : bool := _onHover c.
Definition Control_IsClicked (c : Control U) : bool := _onClick c.
Definition Control_IsFocused (c : Control U) : bool := _onFocus c.
Definition Control_Area (c : Control U) : D2D1_RECT_F := _area c.

Definition Control_WhenClick (this : nat) (f : U) (w : World U) : World U :=
  modify this (set_clickEvent (Closure f)) w.

Definition Control_WhenChange (this : nat) (f : U) (w : World U) : World U :=
  modify this (set_changeEvent (Closure f)) w.

(** *** [Label] *)

Definition Label_Paint (this : nat) (w : World U) : World U :=
  let w := emit (Call this Paint) w in
  match controls w !! this with
  | Some c =>
      emit (RT_DrawTextW (default [] (text_of c)) (_area c) textWriteBrush) w
  | None => w
  end.

(** [Label::Text(text)], on the registered objects. *)
Definition Label_Text (this : nat) (text : wstring) (cs : list (Control U))
  : list (Control U) :=
  alter (fun c =>
           match derived c with
           | IsLabel _ => set_derived (IsLabel text) c
           | _ => c
           end) this cs.

(** *** [TextBox] *)

Definition TextBox_Paint (this : nat) (w : World U) : World U :=
  let w := emit (Call this Paint) w in
  match controls w !! this with
  | Some c =>
      let w := emit (RT_DrawRectangle (_area c) textBoxBorderBrush) w in
      emit (RT_DrawTextW (default [] (text_of c)) (_area c) textWriteBrush) w
  | None => w
  end.

(** [_text += ch] *)
Definition push_back (ch : wchar_t) (c : Control U) : Control U :=
  match derived c with
  | IsTextBox t => set_derived (IsTextBox (t ++ [ch])) c
  | _ => c
  end.

(** [_text.pop_back()] *)
Definition pop_back (c : Control U) : Control U :=
  match derived c with
  | IsTextBox t => set_derived (IsTextBox (removelast t)) c
  | _ => c
  end.

(** [_text.empty()] *)
Definition empty (c : Control U) : bool :=
  match text_of c with
  | Some (_ :: _) => false
  | _ => true
  end.

Definition TextBox_OnChar (this : nat) (ch : wchar_t) (w : World U) : World U :=
  let w := emit (Call this (OnChar ch)) w in
  if negb (ch =? BS)%Z then
    fire this ChangeEvent (modify this (push_back ch) w)
  else w.

Definition TextBox_OnKeyDown (this : nat) (key : Z) (w : World U) : World U :=
  let w := emit (Call this (OnKeyDown key)) w in
  match controls w !! this with
  | Some c =>
      if (key =? VK_BACK)%Z && negb (empty c) then
        fire this ChangeEvent (modify this pop_back w)
      else w
  | None => w
  end.

(** [TextBox::Text()], on the registered objects. *)
Definition TextBox_Text (this : nat) (cs : list (Control U)) : wstring :=
  match cs !! this with
  | Some c => default [] (text_of c)
  | None => []
  end.

(** *** [Button] *)

Definition Button_GetBrush (c : Control U) : Brush :=
  if _onHover c then buttonHoverBrush else buttonNormalBrush.

Definition Button_Paint (this : nat) (w : World U) : World U :=
  let w := emit (Call this Paint) w in
  match controls w !! this with
  | Some c => emit (RT_FillRectangle (_area c) (Button_GetBrush c)) w
  | None => w
  end.

(** *** Virtual calls

    The three member functions a derived class overrides are selected by
    the dynamic class of the object; no class overrides the others. *)

Definition class_of (this : nat) (w : World U) : Derived :=
  match controls w !! this with
  | Some c => derived c
  | None => IsControl
  end.

Definition call_Paint (this : nat) (w : World U) : World U :=
  match class_of this w with
  | IsControl => Control_Paint this w
  | IsLabel _ => Label_Paint this w
  | IsTextBox _ => TextBox_Paint this w
  | IsButton => Button_Paint this w
  end.

Definition call_OnChar (this : nat) (ch : wchar_t) (w : World U) : World U :=
  match class_of this w with
  | IsTextBox _ => TextBox_OnChar this ch w
  | _ => Control_OnChar this ch w
  end.

Definition call_OnKeyDown (this : nat) (key : Z) (w : World U) : World U :=
  match class_of this w with
  | IsTextBox _ => TextBox_OnKeyDown this key w
  | _ => Control_OnKeyDown this key w
  end.

(** *** Construction

    [Control::Control] registers [this] with the container; the new
    object is the last element of [_controls]. *)

Definition Container_Add (control : Control U) (w : World U) : World U :=
  MkWorld (controls w ++ [control]) (trace w).

Definition new_Control (area : D2D1_RECT_F) (d : Derived) (w : World U)
  : nat * World U :=
  (length (controls w),
   Container_Add (MkControl area false false false NoOp NoOp d) w).

Definition new_Label (area : D2D1_RECT_F) : World U -> nat * World U :=
  new_Control area (IsLabel []).
Definition new_Label_text (area : D2D1_RECT_F) (text : wstring)
  : World U -> nat * World U :=
  new_Control area (IsLabel text).
Definition new_TextBox (area : D2D1_RECT_F) : World U -> nat * World U :=
  new_Control area (IsTextBox []).
Definition new_Button (area : D2D1_RECT_F) : World U -> nat * World U :=
  new_Control area IsButton.

(** *** [ControlContainer] *)

(** [for (auto control : _controls) body], the range being fixed when the
    loop starts. *)
Definition for_each (body : nat -> World U -> World U) (w : World U)
  : World U :=
  foldl (fun w control => body control w) w (seq 0 (length (controls w))).

(** The same loop with a body that may [break]. *)
Fixpoint loop_break (body : nat -> World U -> World U * bool)
         (range : list nat) (w : World U) : World U :=
  match range with
  | [] => w
  | control :: range =>
      let '(w', stop) := body control w in
      if stop then w' else loop_break body range w'
  end.

Definition for_each_break (body : nat -> World U -> World U * bool)
           (w : World U) : World U :=
  loop_break body (seq 0 (length (controls w))) w.

Definition Container_OnHover (x y : Z) (w : World U) : World U :=
  for_each
    (fun control w =>
       match controls w !! control with
              | Some c =>
           if PointInRectangle (Control_Area c) (Point2U x y) then
             if negb (Control_IsHover c)
             then Control_OnHover control (Point2U x y) w
             else w
           else if Control_IsHover c then Control_LeaveHover control w
           else w
       | None => w
       end) w.

Definition Container_OnClick (x y : Z) (w : World U) : World U :=
  for_each
    (fun control w =>
       match controls w !! control with
              | Some c =>
           if PointInRectangle (Control_Area c) (Point2U x y) then
             Control_OnFocus control
               (Control_OnClick control (Point2U x y) w)
           else if Control_IsFocused c then Control_LeaveFocus control w
           else w
       | None => w
       end) w.

Definition Container_OnChar (ch : Z) (w : World U) : World U :=
  for_each_break
    (fun control w =>
       match controls w !! control with
       | Some c =>
                      if Control_IsFocused c
           then (call_OnChar control (to_wchar_t ch) w, true)
           else (w, false)
       | None => (w, false)
       end) w.

Definition Container_OnKeyDown (key : Z) (w : World U) : World U :=
  for_each_break
    (fun control w =>
       match controls w !! control with
       | Some c =>
                      if Control_IsFocused c
           then (call_OnKeyDown control (to_unsigned key) w, true)
           else (w, false)
       | None => (w, false)
       end) w.

Definition Container_LeaveClick (w : World U) : World U :=
  for_each
    (fun control w =>
       match controls w !! control with
              | Some c =>
           if Control_IsClicked c then Control_LeaveClick control w else w
       | None => w
       end) w.

Definition Container_Paint (w : World U) : World U :=
  for_each call_Paint w.

(** ** The window procedure *)

(** [DrawRectangle(hwnd)], once the render target exists. *)
Definition DrawRectangle (w : World U) : World U :=
  emit RT_EndDraw (Container_Paint (emit RT_Clear (emit RT_BeginDraw w))).

(** The messages [WndProc] routes to the container; [x] and [y] are the
    [int]s that [GET_X_LPARAM] and [GET_Y_LPARAM] extract. *)
Inductive Message : Type :=
| WM_PAINT
| WM_MOUSEMOVE (x y : Z)
| WM_LBUTTONDOWN (x y : Z)
| WM_LBUTTONUP
| WM_CHAR (wParam : Z)
| WM_KEYDOWN (wParam : Z).

Definition WndProc (message : Message) (w : World U) : World U :=
  match message with
  | WM_PAINT => DrawRectangle w
  | WM_MOUSEMOVE x y => Container_OnHover (to_unsigned x) (to_unsigned y) w
  | WM_LBUTTONDOWN x y => Container_OnClick (to_unsigned x) (to_unsigned y) w
  | WM_LBUTTONUP => Container_LeaveClick w
  | WM_CHAR wParam => Container_OnChar wParam w
  | WM_KEYDOWN wParam => Container_OnKeyDown wParam w
  end.

(** The message loop: the messages are handled one after the other. *)
Definition run (messages : list Message) (w : World U) : World U :=
  foldl (fun w message => WndProc message w) w messages.

End Dispatch.

(** ** The application: [UserInterface] *)

(** The one closure of the program, [[=]() { auto text{ input->Text() };
    std::reverse(text.begin(), text.end()); output->Text(text); }], with
    the two pointers it captures. *)
Inductive Lambda : Type :=
| ReverseInto (input output : nat).

#[global] Instance Lambda_closures : Closures Lambda :=
  fun f cs =>
    match f with
    | ReverseInto input output =>
        let text := TextBox_Text input cs in
        Label_Text output (rev text) cs
    end.

(** The container before any control is constructed. *)
Definition empty_world {U : Type} : World U := MkWorld [] [].

Definition UserInterface (w : World Lambda) : nat * nat * World Lambda :=
  let '(input, w) :=
    new_TextBox (RectF (Float32.lit 20) (Float32.lit 20)
                       (Float32.lit 150) (Float32.lit 50)) w in
  let '(output, w) :=
    new_Label (RectF (Float32.lit 20) (Float32.lit 60)
                     (Float32.lit 150) (Float32.lit 85)) w in
  (input, output, Control_WhenChange input (ReverseInto input output) w).

Definition ui_input : nat := (UserInterface empty_world).1.1.
Definition ui_output : nat := (UserInterface empty_world).1.2.
Definition ui_world : World Lambda := (UserInterface empty_world).2.

(** A click into the text box followed by the characters 'c', 'a', 't'. *)
Definition type_cat : list Message :=
  [WM_LBUTTONDOWN 30 30;
   WM_CHAR (wchar "c"); WM_CHAR (wchar "a"); WM_CHAR (wchar "t")].

(** The registry of [UserInterface] in a later state: the text box with its
    closure, holding some text, and the label, holding the reverse. *)
Definition reverse_bound (cs : list (Control Lambda)) : Prop :=
  exists h1 k1 f1 h2 k2 f2 t,
    cs = [ MkControl (RectF (Float32.lit 20) (Float32.lit 20)
                            (Float32.lit 150) (Float32.lit 50))
                     h1 k1 f1 NoOp (Closure (ReverseInto 0 1)) (IsTextBox t);
           MkControl (RectF (Float32.lit 20) (Float32.lit 60)
                            (Float32.lit 150) (Float32.lit 85))
                     h2 k2 f2 NoOp NoOp (IsLabel (rev t)) ].

(** A registry with two controls whose bounds overlap, as construction
    leaves it. *)
Definition overlapping_world : World Lambda :=
  (new_Button (RectF (Float32.lit 100) (Float32.lit 30)
                     (Float32.lit 200) (Float32.lit 80))
     (new_TextBox (RectF (Float32.lit 20) (Float32.lit 20)
                         (Float32.lit 150) (Float32.lit 50))
                  empty_world).2).2.

(** Closures without effect on the registered controls. *)
Inductive Inert : Type := inert.

#[global] Instance Inert_closures : Closures Inert := fun _ cs => cs.

(** A closure that presses the control it captured, as a callback that
    calls the public [Control::OnClick] of that control does. *)
Inductive Pressing : Type := press (control : nat).

#[global] Instance Pressing_closures : Closures Pressing :=
  fun f cs => match f with press control => alter (set_onClick true) control cs end.

(** A registry with one button whose click callback presses the button
    again. *)
Definition pressing_world : World Pressing :=
  let '(button, w) :=
    new_Button (RectF (Float32.lit 100) (Float32.lit 30)
                      (Float32.lit 200) (Float32.lit 80)) empty_world in
  Control_WhenClick button (press button) w.

(** ** Observations used in the statements *)

Section Observations.

Context {U : Type}.

(** The events recorded between the state [w] and the later state [w']. *)
Definition new_events (w w' : World U) : list Event :=
  drop (length (trace w)) (trace w').

(** The text control [this] holds. *)
Definition shown (this : nat) (w : World U) : option wstring :=
  controls w !! this ≫= text_of.

Definition is_fire (k : EventKind) (this : nat) (e : Event) : bool :=
  match e, k with
  | Fire i ClickEvent, ClickEvent => (i =? this)%nat
  | Fire i ChangeEvent, ChangeEvent => (i =? this)%nat
  | _, _ => false
  end.

(** How often the callback [k] of control [this] was invoked in a trace. *)
Definition fired (k : EventKind) (this : nat) (tr : list Event) : nat :=
  length (List.filter (is_fire k this) tr).

(** The member-function calls of a trace, in order. *)
Definition calls (tr : list Event) : list (nat * Method) :=
  flat_map (fun e => match e with Call i m => [(i, m)] | _ => [] end) tr.


(** [i] is the first control in insertion order whose focused flag is
    set. *)
Definition first_focused (cs : list (Control U)) (i : nat) : Prop :=
  (exists c, cs !! i = Some c /\ _onFocus c = true) /\
  (forall j c, (j < i)%nat -> cs !! j = Some c -> _onFocus c = false).

Definition none_focused (cs : list (Control U)) : Prop :=
  forall j c, cs !! j = Some c -> _onFocus c = false.

Definition at_most_one_focused (cs : list (Control U)) : Prop :=
  forall i j ci cj,
    cs !! i = Some ci -> cs !! j = Some cj ->
    _onFocus ci = true -> _onFocus cj = true -> i = j.

(** No point is inside the bounds of two registered controls. *)
Definition non_overlapping (cs : list (Control U)) : Prop :=
  forall i j ci cj p,
    cs !! i = Some ci -> cs !! j = Some cj ->
    PointInRectangle (_area ci) p = true ->
    PointInRectangle (_area cj) p = true -> i = j.

(** The registry as construction leaves it: no flag is set. *)
Definition initial (cs : list (Control U)) : Prop :=
  forall i c, cs !! i = Some c ->
    _onHover c = false /\ _onClick c = false /\ _onFocus c = false.

(** What a pointer move at [p] calls on control [this]. *)
Definition hover_calls (p : D2D1_POINT_2U) (this : nat) (c : Control U)
  : list Event :=
  if PointInRectangle (_area c) p then
    if _onHover c then [] else [Call this (OnHover p)]
  else
    if _onHover c then [Call this LeaveHover] else [].

(** What a pointer-down at [p] calls on control [this]. *)
Definition click_calls (p : D2D1_POINT_2U) (this : nat) (c : Control U)
  : list Event :=
  if PointInRectangle (_area c) p then
    [Call this (OnClick p); Call this OnFocus]
  else
    if _onFocus c then [Call this LeaveFocus] else [].

(** The control after a pointer-down at [p]. *)
Definition after_click (p : D2D1_POINT_2U) (c : Control U) : Control U :=
  if PointInRectangle (_area c) p
  then set_onFocus true (set_onClick true c)
  else set_onFocus false c.

(** What a repaint calls on control [this] and draws for it. *)
Definition paint_events (this : nat) (c : Control U) : list Event :=
  match derived c with
  | IsControl => [Call this Paint]
  | IsLabel t => [Call this Paint; RT_DrawTextW t (_area c) textWriteBrush]
  | IsTextBox t =>
      [Call this Paint;
       RT_DrawRectangle (_area c) textBoxBorderBrush;
       RT_DrawTextW t (_area c) textWriteBrush]
  | IsButton =>
      [Call this Paint;
       RT_FillRectangle (_area c)
         (if _onHover c then buttonHoverBrush else buttonNormalBrush)]
  end.

(** Bounds and focused flag of a control. *)
Definition bounds_and_focus (c : Control U) : D2D1_RECT_F * bool :=
  (_area c, _onFocus c).

(** What a pointer-up calls on control [this]. *)
Definition release_calls (this : nat) (pressed : bool) : list Event :=
  if pressed then [Call this LeaveClick; Fire this ClickEvent] else [].

End Observations.

(** Closures that leave an observation [proj] of every control as it is. *)
Definition preserves {U A : Type} `{!Closures U} (proj : Control U -> A) : Prop :=
  forall (f : U) (cs : list (Control U)),
    proj <$> run_closure f cs = proj <$> cs.

(** ** Further observations *)

Section MoreObservations.

Context {U : Type}.

(** [i] is the first control in insertion order whose bounds contain [p]. *)
Definition first_hit (cs : list (Control U)) (p : D2D1_POINT_2U) (i : nat)
  : Prop :=
  (exists c, cs !! i = Some c /\ PointInRectangle (_area c) p = true) /\
  (forall j c, (j < i)%nat -> cs !! j = Some c ->
               PointInRectangle (_area c) p = false).

(** No control's bounds contain [p]. *)
Definition none_hit (cs : list (Control U)) (p : D2D1_POINT_2U) : Prop :=
  forall j c, cs !! j = Some c -> PointInRectangle (_area c) p = false.

(** The class of a control, without the members. *)
Inductive ClassTag : Type := TControl | TLabel | TTextBox | TButton.

Definition class_tag (d : Derived) : ClassTag :=
  match d with
  | IsControl => TControl
  | IsLabel _ => TLabel
  | IsTextBox _ => TTextBox
  | IsButton => TButton
  end.

(** What no member function assigns after construction or registration:
    the bounds, the class and the two callbacks. *)
Definition static_part (c : Control U)
  : D2D1_RECT_F * ClassTag * Callback U * Callback U :=
  (_area c, class_tag (derived c), _clickEvent c, _changeEvent c).

End MoreObservations.

(** *** The program's two controls *)

Definition ui_area_input : D2D1_RECT_F :=
  RectF (Float32.lit 20) (Float32.lit 20) (Float32.lit 150) (Float32.lit 50).
Definition ui_area_output : D2D1_RECT_F :=
  RectF (Float32.lit 20) (Float32.lit 60) (Float32.lit 150) (Float32.lit 85).

(** The registry of [UserInterface] in a state where the focused flags of
    the text box and of the label are [s.1.1] and [s.1.2] and the text box
    holds [s.2]; the label then holds the reverse. *)
Definition wired (s : bool * bool * wstring) (cs : list (Control Lambda))
  : Prop :=
  exists h1 k1 h2 k2,
    cs = [ MkControl ui_area_input h1 k1 s.1.1
                     NoOp (Closure (ReverseInto 0 1)) (IsTextBox s.2);
           MkControl ui_area_output h2 k2 s.1.2
                     NoOp NoOp (IsLabel (rev s.2)) ].

(** How a message moves the two focused flags and the text; used to follow
    the program through a sequence of messages. *)
Definition ui_step (s : bool * bool * wstring) (message : Message)
  : bool * bool * wstring :=
  match message with
  | WM_LBUTTONDOWN x y =>
      (PointInRectangle ui_area_input
         (Point2U (to_unsigned x) (to_unsigned y)),
       PointInRectangle ui_area_output
         (Point2U (to_unsigned x) (to_unsigned y)),
       s.2)
  | WM_CHAR ch =>
      if s.1.1 && negb (to_wchar_t ch =? BS)%Z
      then (s.1, s.2 ++ [to_wchar_t ch]) else s
  | WM_KEYDOWN key =>
      if s.1.1 && (to_unsigned key =? VK_BACK)%Z
      then (s.1, removelast s.2) else s
  | _ => s
  end.

Definition is_pointer_down (message : Message) : bool :=
  match message with WM_LBUTTONDOWN _ _ => true | _ => false end.

(** The two messages a press of the Backspace key produces: the key-down
    and, from [TranslateMessage], the character. *)
Definition backspace_key : list Message := [WM_KEYDOWN VK_BACK; WM_CHAR BS].

(** *** Geometry in the code's own terms *)

(** [inner] lies within [outer], edge by edge, as numbers. *)
Definition within (inner outer : D2D1_RECT_F) : Prop :=
  (Float32.to_Q (left outer) <= Float32.to_Q (left inner)
   /\ Float32.to_Q (right inner) <= Float32.to_Q (right outer)
   /\ Float32.to_Q (top outer) <= Float32.to_Q (top inner)
   /\ Float32.to_Q (bottom inner) <= Float32.to_Q (bottom outer))%Q.

(** A point with [UINT32] coordinates. *)
Definition uint32_point (p : D2D1_POINT_2U) : Prop :=
  (0 <= x p < 2 ^ 32)%Z /\ (0 <= y p < 2 ^ 32)%Z.

(** The right and bottom edges are finite and at most 2^31. *)
Definition below_2_31 (r : D2D1_RECT_F) : Prop :=
  Float32.finite (right r) = true /\ Float32.finite (bottom r) = true /\
  (Float32.to_Q (right r) <= inject_Z (2 ^ 31))%Q /\
  (Float32.to_Q (bottom r) <= inject_Z (2 ^ 31))%Q.

(** ** Renderer resources: [CreateD2DResource] and [TextWriter]

    The calls into Direct2D, DirectWrite and the window system are recorded
    by name; what each of them returns is given from outside. *)

(** [FAILED(hr)] of an [HRESULT], a signed 32-bit integer: the sign bit is
    set.  [|] on two of them is [Z.lor], which keeps the range. *)
Definition FAILED (hr : Z) : bool := (hr <? 0)%Z.

Inductive ApiCall : Type :=
| D2D1CreateFactory
| GetClientRect
| CreateHwndRenderTarget
| CreateSolidColorBrush (brush : Brush)
| MessageBoxW (text : string)
| DWriteCreateFactory
| CreateTextFormat
| SetTextAlignment
| SetParagraphAlignment.

(** The [HRESULT] each call returns. *)
Definition ApiResults : Type := ApiCall -> Z.

(** [CreateD2DResource(hWnd)].  The argument [renderTarget] tells whether
    the global [renderTarget] is non-null on entry, the first component of
    the result whether it is non-null on return: [CreateHwndRenderTarget]
    stores the new render target there exactly when it succeeds.  The four
    operands of [|] are all evaluated, in an order the language leaves
    open; they are listed as written. *)
Definition CreateD2DResource (api : ApiResults) (renderTarget : bool)
  : bool * list ApiCall :=
  if negb renderTarget then
    let hr := api D2D1CreateFactory in
    if FAILED hr then
      (false, [D2D1CreateFactory; MessageBoxW "Create D2D factory failed!"])
    else
      let hr := api CreateHwndRenderTarget in
      if FAILED hr then
        (false, [D2D1CreateFactory; GetClientRect; CreateHwndRenderTarget;
                 MessageBoxW "Create render target failed!"])
      else
        let hr :=
          Z.lor (Z.lor (Z.lor (api (CreateSolidColorBrush buttonNormalBrush))
                              (api (CreateSolidColorBrush buttonHoverBrush)))
                       (api (CreateSolidColorBrush textWriteBrush)))
                (api (CreateSolidColorBrush textBoxBorderBrush)) in
        (true,
         [D2D1CreateFactory; GetClientRect; CreateHwndRenderTarget;
          CreateSolidColorBrush buttonNormalBrush;
          CreateSolidColorBrush buttonHoverBrush;
          CreateSolidColorBrush textWriteBrush;
          CreateSolidColorBrush textBoxBorderBrush]
         ++ (if FAILED hr then [MessageBoxW "Create brush failed!"] else []))
  else (true, []).

(** [TextWriter::TextWriter()]: the calls made, and the message of the
    [std::runtime_error] thrown or [tt] when construction completes. *)
Definition TextWriter_new (api : ApiResults) : list ApiCall * (string + unit) :=
  if FAILED (api DWriteCreateFactory) then
    ([DWriteCreateFactory],
     inl "Initialize TextWriter failed: DWriteCreateFactory."%string)
  else if FAILED (api CreateTextFormat) then
    ([DWriteCreateFactory; CreateTextFormat],
     inl "Initialize TextWriter failed: CreateTextFormat."%string)
  else if FAILED (api SetTextAlignment) then
    ([DWriteCreateFactory; CreateTextFormat; SetTextAlignment],
     inl "Initialize TextWriter failed: SetTextAlignment."%string)
  else if FAILED (api SetParagraphAlignment) then
    ([DWriteCreateFactory; CreateTextFormat; SetTextAlignment;
      SetParagraphAlignment],
     inl "Initialize TextWriter failed: SetParagraphAlignment"%string)
  else
    ([DWriteCreateFactory; CreateTextFormat; SetTextAlignment;
      SetParagraphAlignment], inr tt).

#[global] Instance Brush_eq_dec : EqDecision Brush.
Proof. solve_decision. Defined.

(** The texts of the message boxes among the calls. *)
Definition boxes (calls : list ApiCall) : list string :=
  flat_map (fun c => match c with MessageBoxW text => [text] | _ => [] end)
           calls.

(** The brushes the program creates. *)
Definition created_brushes : list Brush :=
  [buttonNormalBrush; buttonHoverBrush; textWriteBrush; textBoxBorderBrush].

(** The name of a step of the [TextWriter] constructor. *)
Definition step_name (c : ApiCall) : string :=
  match c with
  | DWriteCreateFactory => "DWriteCreateFactory"
  | CreateTextFormat => "CreateTextFormat"
  | SetTextAlignment => "SetTextAlignment"
  | SetParagraphAlignment => "SetParagraphAlignment"
  | _ => ""
  end.


(** * Properties *)

(** ** Single-precision comparison and conversion *)

Module Float32Facts.
Import Float32.
Local Open Scope Z_scope.

Lemma digits2_size p : digits2_pos p = Pos.size p.
Proof. induction p; simpl; congruence. Qed.

Lemma digits2_bounds p :
  2 ^ (Zpos (digits2_pos p) - 1) <= Zpos p < 2 ^ Zpos (digits2_pos p).
Proof.
  rewrite digits2_size. split.
  - pose proof (Pos.size_le p) as H.
    assert (Hz : Zpos (2 ^ Pos.size p) <= Zpos p~0) by exact H.
    rewrite Pos2Z.inj_pow in Hz.
    replace (Zpos (Pos.size p)) with (Zpos (Pos.size p) - 1 + 1) in Hz by lia.
    rewrite Z.pow_add_r in Hz by lia. lia.
  - pose proof (Pos.size_gt p) as H.
    assert (Hz : Zpos p < Zpos (2 ^ Pos.size p)) by exact H.
    now rewrite Pos2Z.inj_pow in Hz.
Qed.

Lemma bounded_inv m e :
  bounded prec emax m e = true ->
  Zpos m < 2 ^ 24 /\ (-149 < e -> 2 ^ 23 <= Zpos m) /\ -149 <= e <= 104.
Proof.
  unfold bounded, canonical_mantissa, fexp, emin, prec, emax.
  intros H. apply andb_prop in H as [H1 H2].
  apply Z.eqb_eq in H1. apply Z.leb_le in H2.
  pose proof (digits2_bounds m) as [Hl Hu].
  assert (Hd : Zpos (digits2_pos m) <= 24) by lia.
  repeat split; try lia.
  - eapply Z.lt_le_trans; [exact Hu|]. apply Z.pow_le_mono_r; lia.
  - intros He. assert (Zpos (digits2_pos m) = 24) as Hd' by lia.
    rewrite Hd' in Hl. exact Hl.
Qed.

Lemma pow2_pos_Q e : (0 < (2 # 1) ^ e)%Q.
Proof. apply Qpower_0_lt. reflexivity. Qed.

Lemma to_Q_scaled s m e k :
  k <= e ->
  (to_Q (S754_finite s m e) ==
   inject_Z (cond_Zopp s (Zpos m) * 2 ^ (e - k)) * (2 # 1) ^ k)%Q.
Proof.
  intros Hk. unfold to_Q.
  rewrite inject_Z_mult, Zpower_Qpower by lia.
  replace e with ((e - k) + k) at 1 by lia.
  rewrite Qpower_plus by discriminate.
  change (inject_Z 2) with (2 # 1)%Q. ring.
Qed.

Lemma to_Q_zero s k : (to_Q (S754_zero s) == inject_Z 0 * (2 # 1) ^ k)%Q.
Proof. cbn [to_Q]. change (inject_Z 0) with 0%Q. ring. Qed.

Lemma compare_scaled (a b : Z) k :
  ((inject_Z a * (2 # 1) ^ k ?= inject_Z b * (2 # 1) ^ k)%Q) = (a ?= b).
Proof.
  destruct (Z.compare_spec a b) as [H|H|H].
  - subst. apply Qeq_alt. reflexivity.
  - apply Qlt_alt. apply Qmult_lt_r; [apply pow2_pos_Q|]. now rewrite <- Zlt_Qlt.
  - apply Qgt_alt. apply Qmult_lt_r; [apply pow2_pos_Q|]. now rewrite <- Zlt_Qlt.
Qed.

Lemma mantissa_lt_of_exp_lt m1 e1 m2 e2 :
  bounded prec emax m1 e1 = true -> bounded prec emax m2 e2 = true ->
  e1 < e2 -> Zpos m1 < Zpos m2 * 2 ^ (e2 - e1).
Proof.
  intros H1 H2 He.
  apply bounded_inv in H1 as (Hm1 & _ & He1).
  apply bounded_inv in H2 as (_ & Hm2 & _).
  specialize (Hm2 ltac:(lia)).
  assert (Hp : 2 ^ 1 <= 2 ^ (e2 - e1)) by (apply Z.pow_le_mono_r; lia).
  change (2 ^ 1) with 2 in Hp. change (2 ^ 24) with 16777216 in Hm1.
  change (2 ^ 23) with 8388608 in Hm2. nia.
Qed.

Lemma compare_finite f1 f2 :
  finite f1 = true -> finite f2 = true ->
  SFcompare f1 f2 = Some (to_Q f1 ?= to_Q f2)%Q.
Proof.
  destruct f1 as [s1| | |s1 m1 e1], f2 as [s2| | |s2 m2 e2];
    try discriminate; intros H1 H2; cbn [finite] in *.
  - reflexivity.
  - cbn [SFcompare]. f_equal.
    rewrite (to_Q_scaled s2 m2 e2 e2) by lia.
    rewrite (to_Q_zero s1 e2).
    rewrite compare_scaled. rewrite Z.sub_diag, Z.mul_1_r.
    destruct s2; reflexivity.
  - cbn [SFcompare]. f_equal.
    rewrite (to_Q_scaled s1 m1 e1 e1) by lia.
    rewrite (to_Q_zero s2 e1).
    rewrite compare_scaled. rewrite Z.sub_diag, Z.mul_1_r.
    destruct s1; reflexivity.
  - cbn [SFcompare]. f_equal.
    set (k := Z.min e1 e2).
    rewrite (to_Q_scaled s1 m1 e1 k), (to_Q_scaled s2 m2 e2 k) by (subst k; lia).
    rewrite compare_scaled.
    assert (Hp1 : 0 < 2 ^ (e1 - k)) by (apply Z.pow_pos_nonneg; subst k; lia).
    assert (Hp2 : 0 < 2 ^ (e2 - k)) by (apply Z.pow_pos_nonneg; subst k; lia).
    destruct (Z.compare_spec e1 e2) as [He|He|He].
    + subst e2. replace (e1 - k) with 0 by (subst k; lia).
      rewrite !Z.mul_1_r. change (Pos.compare_cont Eq m1 m2) with (Zpos m1 ?= Zpos m2).
      destruct s1, s2; cbn [cond_Zopp]; reflexivity.
    + pose proof (mantissa_lt_of_exp_lt m1 e1 m2 e2 H1 H2 He) as Hlt.
      replace (e1 - k) with 0 in * by (subst k; lia).
      replace (e2 - k) with (e2 - e1) in * by (subst k; lia).
      rewrite Z.mul_1_r.
      destruct s1, s2; cbn [cond_Zopp]; symmetry;
        first [ apply Z.compare_lt_iff | apply Z.compare_gt_iff ]; lia.
    + pose proof (mantissa_lt_of_exp_lt m2 e2 m1 e1 H2 H1 He) as Hlt.
      replace (e2 - k) with 0 in * by (subst k; lia).
      replace (e1 - k) with (e1 - e2) in * by (subst k; lia).
      rewrite Z.mul_1_r.
      destruct s1, s2; cbn [cond_Zopp]; symmetry;
        first [ apply Z.compare_lt_iff | apply Z.compare_gt_iff ]; lia.
Qed.

Lemma ltb_to_Q f1 f2 :
  finite f1 = true -> finite f2 = true ->
  ltb f1 f2 = true <-> (to_Q f1 < to_Q f2)%Q.
Proof.
  intros H1 H2. unfold ltb, SFltb. rewrite (compare_finite f1 f2 H1 H2).
  rewrite Qlt_alt. destruct (to_Q f1 ?= to_Q f2)%Q; split; congruence.
Qed.

Lemma iter_xO_digits p k :
  Zpos (digits2_pos (Pos.iter xO p k)) = Zpos (digits2_pos p) + Zpos k.
Proof.
  induction k as [|k IH] using Pos.peano_ind.
  - cbn. lia.
  - rewrite Pos.iter_succ. cbn [digits2_pos]. lia.
Qed.

Lemma iter_xO_value p k : Zpos (Pos.iter xO p k) = Zpos p * 2 ^ Zpos k.
Proof.
  induction k as [|k IH] using Pos.peano_ind.
  - cbn. lia.
  - rewrite Pos.iter_succ, Pos2Z.inj_xO, IH, Pos2Z.inj_succ, Z.pow_succ_r by lia.
    ring.
Qed.

Lemma round_aux_canonical m e :
  Zpos (digits2_pos m) = 24 -> -149 <= e <= 104 ->
  binary_round_aux prec emax false (Zpos m) e loc_Exact = S754_finite false m e.
Proof.
  intros Hd He.
  assert (Hs : shr_fexp prec emax (Zpos m) e loc_Exact =
               ({| shr_m := Zpos m; shr_r := false; shr_s := false |}, e)).
  { unfold shr_fexp, fexp, emin, prec, emax. cbn [Zdigits2]. rewrite Hd.
    replace (Z.max (24 + e - 24) (3 - 128 - 24) - e) with 0 by lia.
    reflexivity. }
  unfold binary_round_aux. rewrite Hs. cbn [shr_m loc_of_shr_record round_nearest_even].
  rewrite Hs. cbn [shr_m].
  replace (e <=? emax - prec) with true; [reflexivity|].
  symmetry. apply Z.leb_le. unfold emax, prec. lia.
Qed.

(** Below 2^24 the conversion of an integer to [float] is exact. *)
Lemma of_uint_exact n :
  0 <= n < 2 ^ 24 ->
  finite (of_uint n) = true /\ (to_Q (of_uint n) == inject_Z n)%Q.
Proof.
  intros Hn. destruct n as [|p|p]; [split; reflexivity| |lia].
  pose proof (digits2_bounds p) as [Hl Hu].
  assert (Hd : Zpos (digits2_pos p) <= 24).
  { destruct (Z_le_gt_dec (Zpos (digits2_pos p)) 24) as [|Hgt]; [assumption|].
    assert (2 ^ 24 <= 2 ^ (Zpos (digits2_pos p) - 1)) by (apply Z.pow_le_mono_r; lia).
    lia. }
  unfold of_uint, binary_normalize, binary_round, shl_align, fexp, emin.
  rewrite Z.add_0_r.
  replace (Z.max (Zpos (digits2_pos p) - prec) (3 - emax - prec) - 0)
    with (Zpos (digits2_pos p) - 24) by (unfold prec, emax; lia).
  destruct (Zpos (digits2_pos p) - 24) as [|k|k] eqn:Hk; [|lia|].
  - rewrite round_aux_canonical by lia.
    split.
    + cbn [finite]. unfold bounded, canonical_mantissa, fexp, emin, prec, emax.
      replace (Zpos (digits2_pos p)) with 24 by lia. reflexivity.
    + cbn [to_Q cond_Zopp]. cbn. ring.
  - replace (Z.max (Zpos (digits2_pos p) - prec) (3 - emax - prec))
      with (Zneg k) by (unfold prec, emax; lia).
    assert (Hdk : Zpos (digits2_pos (Pos.iter xO p k)) = 24)
      by (rewrite iter_xO_digits; lia).
    rewrite round_aux_canonical by (assumption || lia).
    split.
    + cbn [finite]. unfold bounded, canonical_mantissa, fexp, emin.
      rewrite Hdk. unfold prec, emax.
      apply andb_true_intro; split; [apply Z.eqb_eq|apply Z.leb_le]; lia.
    + rewrite (to_Q_scaled false _ (Zneg k) (Zneg k)) by lia.
      cbn [cond_Zopp]. rewrite Z.sub_diag, Z.mul_1_r, iter_xO_value.
      rewrite inject_Z_mult, Zpower_Qpower by lia.
      change (inject_Z 2) with (2 # 1)%Q.
      rewrite <- Qmult_assoc, <- Qpower_plus by discriminate.
      replace (Zpos k + Zneg k) with 0 by lia. cbn. ring.
Qed.

End Float32Facts.

(** ** The hit test *)

Section HitTest.

Import Float32 Float32Facts.






End HitTest.

(** ** Loops over the registry *)

Section Loops.

Context {U : Type} `{!Closures U}.

Lemma alter_as_insert {A} (f : A -> A) (i : nat) (l : list A) (a : A) :
  l !! i = Some a -> alter f i l = <[i := f a]> l.
Proof.
  intros Ha. apply list_eq; intros j.
  destruct (decide (i = j)) as [->|Hne].
  - rewrite list_lookup_alter_eq, Ha, list_lookup_insert_eq; [done|].
    by eapply lookup_lt_Some.
  - by rewrite list_lookup_alter_ne, list_lookup_insert_ne.
Qed.

(** A loop whose body, seen through an observation [proj] of the controls,
    rewrites only the control it visits. *)
Lemma foldl_seq_proj {A} (proj : Control U -> A) (g : nat -> A -> A)
      (ev : nat -> A -> list Event) (body : nat -> World U -> World U) :
  (forall i w c, controls w !! i = Some c ->
     proj <$> controls (body i w) = <[i := g i (proj c)]> (proj <$> controls w)
     /\ trace (body i w) = trace w ++ ev i (proj c)) ->
  forall w n, n <= length (controls w) ->
    let w' := foldl (fun w i => body i w) w (seq 0 n) in
    proj <$> controls w'
    = imap g (take n (proj <$> controls w)) ++ drop n (proj <$> controls w)
    /\ trace w' = trace w ++ concat (imap ev (take n (proj <$> controls w))).
Proof.
  intros Hbody w. set (l := proj <$> controls w).
  induction n as [|n IH]; intros Hn; cbn zeta.
  - cbn. rewrite drop_0, app_nil_r. done.
  - rewrite seq_S, foldl_snoc. cbn [Nat.add].
    destruct IH as [IHc IHt]; [lia|]. cbn zeta in IHc, IHt.
    set (wn := foldl (fun w i => body i w) w (seq 0 n)) in *.
    assert (Hlen : length l = length (controls w)) by (subst l; apply length_fmap).
    destruct (lookup_lt_is_Some_2 l n) as [a Ha]; [lia|].
    assert (Htk : length (imap g (take n l)) = n)
      by (rewrite length_imap, length_take_le; lia).
    assert (Hc : exists c, controls wn !! n = Some c /\ proj c = a).
    { assert (Hl : (proj <$> controls wn) !! n = Some a).
      { rewrite IHc, lookup_app_r by lia. rewrite Htk, Nat.sub_diag.
        rewrite lookup_drop, Nat.add_0_r. done. }
      rewrite list_lookup_fmap in Hl.
      destruct (controls wn !! n) as [c|]; [|done].
      exists c. split; [done|]. by inversion Hl. }
    destruct Hc as (c & Hc & <-).
    destruct (Hbody n wn c Hc) as [Hb1 Hb2].
    rewrite (take_S_r _ _ _ Ha), !imap_app, length_take_le by lia.
    cbn [imap]. rewrite Nat.add_0_r. split.
    + rewrite Hb1, IHc, insert_app_r_alt by lia.
      rewrite Htk, Nat.sub_diag, (drop_S _ _ _ Ha). cbn.
      by rewrite <- app_assoc.
    + rewrite Hb2, IHt, concat_app. cbn. by rewrite app_nil_r, app_assoc.
Qed.

Lemma for_each_proj {A} (proj : Control U -> A) (g : nat -> A -> A)
      (ev : nat -> A -> list Event) (body : nat -> World U -> World U) :
  (forall i w c, controls w !! i = Some c ->
     proj <$> controls (body i w) = <[i := g i (proj c)]> (proj <$> controls w)
     /\ trace (body i w) = trace w ++ ev i (proj c)) ->
  forall w,
    proj <$> controls (for_each body w) = imap g (proj <$> controls w)
    /\ trace (for_each body w)
       = trace w ++ concat (imap ev (proj <$> controls w)).
Proof.
  intros Hbody w.
  destruct (foldl_seq_proj proj g ev body Hbody w (length (controls w)))
    as [Hc Ht]; [lia|].
  cbn zeta in Hc, Ht. unfold for_each.
  rewrite take_ge, drop_ge, ?app_nil_r in Hc by (rewrite length_fmap; lia).
  rewrite take_ge in Ht by (rewrite length_fmap; lia).
  done.
Qed.

End Loops.

(** ** Member functions, one at a time *)

Section Members.

Context {U : Type} `{!Closures U}.

Lemma imap_ignore_index {A B} (f : A -> B) (l : list A) :
  imap (fun _ => f) l = f <$> l.
Proof. apply (imap_const f). Qed.

Lemma set_onHover_same (c : Control U) : set_onHover (_onHover c) c = c.
Proof. by destruct c. Qed.

Lemma set_onFocus_same (c : Control U) : set_onFocus (_onFocus c) c = c.
Proof. by destruct c. Qed.

Lemma trace_invoke (f : Callback U) (w : World U) : trace (invoke f w) = trace w.
Proof. by destruct f. Qed.

Lemma controls_invoke_proj {A} (proj : Control U -> A) f (w : World U) :
  preserves proj -> proj <$> controls (invoke f w) = proj <$> controls w.
Proof. intros Hp. destruct f as [|u]; [done|]. apply Hp. Qed.

Lemma trace_fire this k (w : World U) c :
  controls w !! this = Some c -> trace (fire this k w) = trace w ++ [Fire this k].
Proof. intros Hc. unfold fire. rewrite Hc. by rewrite trace_invoke. Qed.

Lemma controls_fire_proj {A} (proj : Control U -> A) this k (w : World U) :
  preserves proj -> proj <$> controls (fire this k w) = proj <$> controls w.
Proof.
  intros Hp. unfold fire. destruct (controls w !! this); [|done].
  by rewrite controls_invoke_proj.
Qed.

Lemma fire_NoOp this k (w : World U) c :
  controls w !! this = Some c ->
  match k with ClickEvent => _clickEvent c | ChangeEvent => _changeEvent c end
  = NoOp ->
  fire this k w = emit (Fire this k) w.
Proof. intros Hc Hk. unfold fire. by rewrite Hc, Hk. Qed.

(** *** Pointer move *)

Lemma Container_OnHover_spec (x y : Z) (w : World U) :
  controls (Container_OnHover x y w)
  = (fun c : Control U =>
       set_onHover (PointInRectangle (_area c) (Point2U x y)) c)
      <$> controls w
  /\ trace (Container_OnHover x y w)
     = trace w ++ concat (imap (hover_calls (Point2U x y)) (controls w)).
Proof.
  set (p := Point2U x y).
  pose proof (for_each_proj id
    (fun _ (c : Control U) => set_onHover (PointInRectangle (_area c) p) c)
    (hover_calls p)) as Hloop.
  unfold Container_OnHover. fold p.
  match goal with |- context [for_each ?b w] => specialize (Hloop b) end.
  destruct (Hloop) with (w := w) as [Hc Ht];
    [|rewrite !list_fmap_id in Hc; rewrite !list_fmap_id in Ht;
      rewrite imap_ignore_index in Hc; split; [exact Hc|exact Ht]].
  intros i w' c Hi. rewrite !list_fmap_id. cbn beta. rewrite Hi.
unfold hover_calls, id, Control_Area, Control_IsHover.
  destruct (PointInRectangle (_area c) p), (_onHover c) eqn:Hh; cbn.
  - rewrite <- Hh, set_onHover_same, list_insert_id, app_nil_r; done.
  - by rewrite (alter_as_insert _ _ _ _ Hi).
  - by rewrite (alter_as_insert _ _ _ _ Hi).
  - rewrite <- Hh, set_onHover_same, list_insert_id, app_nil_r; done.
Qed.

(** *** Pointer down *)

Lemma Container_OnClick_spec (x y : Z) (w : World U) :
  controls (Container_OnClick x y w)
  = after_click (Point2U x y) <$> controls w
  /\ trace (Container_OnClick x y w)
     = trace w ++ concat (imap (click_calls (Point2U x y)) (controls w)).
Proof.
  set (p := Point2U x y).
  pose proof (for_each_proj (@id (Control U)) (fun _ => after_click p)
                             (click_calls p))
    as Hloop.
  unfold Container_OnClick. fold p.
  match goal with |- context [for_each ?b w] => specialize (Hloop b) end.
  destruct (Hloop) with (w := w) as [Hc Ht];
    [|rewrite !list_fmap_id in Hc; rewrite !list_fmap_id in Ht;
      rewrite imap_ignore_index in Hc; split; [exact Hc|exact Ht]].
  intros i w' c Hi. rewrite !list_fmap_id. cbn beta. rewrite Hi.
unfold click_calls, after_click, id, Control_Area, Control_IsFocused.
  destruct (PointInRectangle (_area c) p); [|destruct (_onFocus c) eqn:Hf]; cbn.
  - rewrite list_alter_alter_eq, (alter_as_insert _ _ _ _ Hi).
    by rewrite <- app_assoc.
  - by rewrite (alter_as_insert _ _ _ _ Hi).
  - rewrite <- Hf, set_onFocus_same, list_insert_id, app_nil_r; done.
Qed.

(** *** Repaint *)

Lemma call_Paint_spec this (w : World U) c :
  controls w !! this = Some c ->
  call_Paint this w = MkWorld (controls w) (trace w ++ paint_events this c).
Proof.
  intros Hc. unfold call_Paint, class_of, paint_events. rewrite Hc.
  destruct c as [a h k f ce ch d]; destruct d as [|t|t|]; cbn in *.
  - done.
  - unfold Label_Paint. cbn. rewrite Hc. unfold emit. cbn.
    by rewrite <- app_assoc.
  - unfold TextBox_Paint. cbn. rewrite Hc. unfold emit. cbn.
    by rewrite <- !app_assoc.
  - unfold Button_Paint. cbn. rewrite Hc. unfold emit. cbn.
    by rewrite <- app_assoc.
Qed.

Lemma Container_Paint_spec (w : World U) :
  controls (Container_Paint w) = controls w
  /\ trace (Container_Paint w)
     = trace w ++ concat (imap paint_events (controls w)).
Proof.
  pose proof (for_each_proj id (fun _ (c : Control U) => c) paint_events) as Hloop.
  unfold Container_Paint.
  destruct (Hloop call_Paint) with (w := w) as [Hc Ht];
    [|rewrite !list_fmap_id in Hc; rewrite !list_fmap_id in Ht;
      rewrite (imap_ignore_index (fun c => c)), list_fmap_id in Hc;
      split; [exact Hc|exact Ht]].
  intros i w' c Hi. rewrite !list_fmap_id.
  rewrite (call_Paint_spec _ _ _ Hi). cbn.
  by rewrite list_insert_id.
Qed.

(** *** Pointer up *)

Lemma lookup_modify this (f : Control U -> Control U) (w : World U) c :
  controls w !! this = Some c ->
  controls (modify this f w) !! this = Some (f c).
Proof. intros Hc. cbn. by rewrite list_lookup_alter_eq, Hc. Qed.

Lemma fmap_alter_frame {A} (proj : Control U -> A) (f : Control U -> Control U)
      (i : nat) (cs : list (Control U)) :
  (forall c, proj (f c) = proj c) -> proj <$> alter f i cs = proj <$> cs.
Proof.
  intros Hf. apply list_eq; intros j. rewrite !list_lookup_fmap.
  destruct (decide (i = j)) as [->|Hne].
  - rewrite list_lookup_alter_eq. destruct (cs !! j); cbn; [|done].
    by rewrite Hf.
  - by rewrite list_lookup_alter_ne.
Qed.

Lemma Control_LeaveClick_trace this (w : World U) c :
  controls w !! this = Some c ->
  trace (Control_LeaveClick this w)
  = trace w ++ [Call this LeaveClick; Fire this ClickEvent].
Proof.
  intros Hc. unfold Control_LeaveClick.
  erewrite trace_fire by (apply lookup_modify; exact Hc).
  cbn. by rewrite <- app_assoc.
Qed.

Lemma Container_LeaveClick_spec (w : World U) :
  preserves (@_onClick U) ->
  _onClick <$> controls (Container_LeaveClick w)
  = (fun _ => false) <$> controls w
  /\ trace (Container_LeaveClick w)
     = trace w ++ concat (imap release_calls (_onClick <$> controls w)).
Proof.
  intros Hp.
  pose proof (for_each_proj (@_onClick U) (fun _ _ => false) release_calls)
    as Hloop.
  unfold Container_LeaveClick.
  match goal with |- context [for_each ?b w] => specialize (Hloop b) end.
  destruct (Hloop) with (w := w) as [Hc Ht];
    [|rewrite imap_ignore_index, <- list_fmap_compose in Hc;
      split; [exact Hc|exact Ht]].
  intros i w' c Hi. cbn beta. rewrite Hi.
unfold release_calls, Control_IsClicked.
  destruct (_onClick c) eqn:Hk.
  - split; [|by apply (Control_LeaveClick_trace _ _ c)].
    unfold Control_LeaveClick. rewrite controls_fire_proj by done.
    cbn. by rewrite (alter_as_insert _ _ _ _ Hi), list_fmap_insert.
  - split; [|by rewrite app_nil_r].
    rewrite list_insert_id; [done|].
    by rewrite list_lookup_fmap, Hi; cbn; rewrite Hk.
Qed.

Lemma for_each_preserves (I : World U -> Prop)
      (body : nat -> World U -> World U) :
  (forall i w, I w -> I (body i w)) ->
  forall w, I w -> I (for_each body w).
Proof.
  intros Hbody w. unfold for_each.
  generalize (seq 0 (length (controls w))). intros l. revert w.
  induction l as [|i l IH]; intros w Hw; cbn; [done|].
  apply IH, Hbody, Hw.
Qed.

Lemma Control_LeaveClick_frame {A} (proj : Control U -> A) this (w : World U) :
  preserves proj ->
  (forall b c, proj (set_onClick b c) = proj c) ->
  proj <$> controls (Control_LeaveClick this w) = proj <$> controls w.
Proof.
  intros Hp Hset. unfold Control_LeaveClick.
  rewrite controls_fire_proj by done. cbn.
  by apply fmap_alter_frame.
Qed.

Lemma Container_LeaveClick_frame {A} (proj : Control U -> A) (w : World U) :
  preserves proj ->
  (forall b c, proj (set_onClick b c) = proj c) ->
  proj <$> controls (Container_LeaveClick w) = proj <$> controls w.
Proof.
  intros Hp Hset. unfold Container_LeaveClick.
  apply (for_each_preserves
           (fun w' => proj <$> controls w' = proj <$> controls w)); [|done].
  intros i w' Hw'. destruct (controls w' !! i) as [c|]; [|done].
destruct (Control_IsClicked c); [|done].
  by rewrite Control_LeaveClick_frame.
Qed.

(** *** Keyboard *)

Lemma loop_break_skip (body : nat -> World U -> World U * bool) range w :
  (forall i, i ∈ range -> body i w = (w, false)) ->
  loop_break body range w = w.
Proof.
  induction range as [|i range IH]; intros Hb; cbn; [done|].
  rewrite Hb by apply list_elem_of_here.
  apply IH. intros j Hj. apply Hb. by apply list_elem_of_further.
Qed.

Lemma loop_break_hit (body : nat -> World U -> World U * bool) n k i w w' :
  k <= i < k + n ->
  (forall j, k <= j < i -> body j w = (w, false)) ->
  body i w = (w', true) ->
  loop_break body (seq k n) w = w'.
Proof.
  revert k. induction n as [|n IH]; intros k Hi Hskip Hhit; [lia|].
  cbn. destruct (decide (k = i)) as [->|Hne].
  - by rewrite Hhit.
  - rewrite Hskip by lia. apply IH; [lia| |done].
    intros j Hj. apply Hskip. lia.
Qed.

Lemma focused_cases (cs : list (Control U)) :
  none_focused cs \/ exists i, first_focused cs i.
Proof.
  induction cs as [|c cs IH].
  - left. intros j c Hj. by rewrite lookup_nil in Hj.
  - destruct (_onFocus c) eqn:Hf.
    + right. exists 0. split; [by exists c|]. intros j c' Hj. lia.
    + destruct IH as [Hn|[i [(ci & Hi & Hfi) Hlt]]].
      * left. intros [|j] c' Hj; cbn in Hj; [by inversion Hj; subst|].
        by eapply Hn.
      * right. exists (S i). split; [by exists ci|].
        intros [|j] c' Hlt' Hj; cbn in Hj; [by inversion Hj; subst|].
        eapply Hlt; [|done]. lia.
Qed.

Lemma focused_loop_first (act : nat -> World U -> World U) (w : World U) i :
  first_focused (controls w) i ->
  for_each_break
    (fun control w =>
       match controls w !! control with
              | Some c =>
           if Control_IsFocused c then (act control w, true) else (w, false)
       | None => (w, false)
       end) w
  = act i w.
Proof.
  intros [(c & Hc & Hf) Hlt]. unfold for_each_break.
  apply loop_break_hit with (i := i).
  - split; [lia|]. cbn. by eapply lookup_lt_Some.
  - intros j Hj. destruct (controls w !! j) as [cj|] eqn:Hcj; [|done].
  unfold Control_IsFocused. rewrite (Hlt j cj); [done|lia|done].
- unfold Control_IsFocused. by rewrite Hc, Hf.
Qed.

Lemma focused_loop_none (act : nat -> World U -> World U) (w : World U) :
  none_focused (controls w) ->
  for_each_break
    (fun control w =>
       match controls w !! control with
              | Some c =>
           if Control_IsFocused c then (act control w, true) else (w, false)
       | None => (w, false)
       end) w
  = w.
Proof.
  intros Hn. unfold for_each_break. apply loop_break_skip.
  intros j _. destruct (controls w !! j) as [cj|] eqn:Hcj; [|done].
unfold Control_IsFocused. by rewrite (Hn j cj).
Qed.

End Members.

(** ** Text editing *)

Section TextEditing.

Context {U : Type} `{!Closures U}.

Lemma TextBox_OnChar_char this ch (w : World U) c t :
  controls w !! this = Some c -> derived c = IsTextBox t -> ch <> BS ->
  TextBox_OnChar this ch w
  = invoke (_changeEvent c)
      (MkWorld (<[this := set_derived (IsTextBox (t ++ [ch])) c]> (controls w))
               (trace w ++ [Call this (OnChar ch); Fire this ChangeEvent])).
Proof.
  intros Hc Hd Hch. unfold TextBox_OnChar.
  apply Z.eqb_neq in Hch. rewrite Hch. cbn [negb].
  unfold fire. erewrite lookup_modify by exact Hc.
  unfold modify, emit. cbn [controls trace].
  rewrite (alter_as_insert _ _ _ _ Hc). unfold push_back. rewrite Hd.
  cbn. by rewrite <- app_assoc.
Qed.

Lemma TextBox_OnKeyDown_back this (w : World U) c t a :
  controls w !! this = Some c -> derived c = IsTextBox (t ++ [a]) ->
  TextBox_OnKeyDown this VK_BACK w
  = invoke (_changeEvent c)
      (MkWorld (<[this := set_derived (IsTextBox t) c]> (controls w))
               (trace w ++ [Call this (OnKeyDown VK_BACK);
                            Fire this ChangeEvent])).
Proof.
  intros Hc Hd.
  assert (He : empty c = false)
    by (unfold empty, text_of; rewrite Hd; by destruct t).
  unfold TextBox_OnKeyDown. cbn. rewrite Hc, He.
  cbn [negb andb]. unfold fire. erewrite lookup_modify by exact Hc.
  unfold modify, emit. cbn [controls trace].
  rewrite (alter_as_insert _ _ _ _ Hc). unfold pop_back. rewrite Hd.
  cbn. by rewrite removelast_last, <- app_assoc.
Qed.

Lemma TextBox_OnKeyDown_empty this (w : World U) c :
  controls w !! this = Some c -> derived c = IsTextBox [] ->
  TextBox_OnKeyDown this VK_BACK w = emit (Call this (OnKeyDown VK_BACK)) w.
Proof.
  intros Hc Hd. unfold TextBox_OnKeyDown. cbn. rewrite Hc.
  unfold empty, text_of. by rewrite Hd.
Qed.

(** C4: on a [TextBox] holding [t], a character other than backspace is
    appended and the change callback is invoked once, on the state that
    holds the longer text; [VK_BACK] on a non-empty text removes exactly the
    last character and invokes the callback once; [VK_BACK] on the empty
    text and a backspace character change no text and invoke nothing. *)
Theorem TextBox_edits this (w : World U) (c : Control U) (t : wstring) :
  controls w !! this = Some c -> derived c = IsTextBox t ->
  (forall ch, ch <> BS ->
     TextBox_OnChar this ch w
     = invoke (_changeEvent c)
         (MkWorld (<[this := set_derived (IsTextBox (t ++ [ch])) c]>
                     (controls w))
                  (trace w ++ [Call this (OnChar ch); Fire this ChangeEvent]))
     /\ fired ChangeEvent this (new_events w (TextBox_OnChar this ch w)) = 1)
  /\ (forall t' a, t = t' ++ [a] ->
        TextBox_OnKeyDown this VK_BACK w
        = invoke (_changeEvent c)
            (MkWorld (<[this := set_derived (IsTextBox t') c]> (controls w))
                     (trace w ++ [Call this (OnKeyDown VK_BACK);
                                  Fire this ChangeEvent]))
        /\ fired ChangeEvent this
             (new_events w (TextBox_OnKeyDown this VK_BACK w)) = 1)
  /\ (t = [] ->
        TextBox_OnKeyDown this VK_BACK w
        = MkWorld (controls w) (trace w ++ [Call this (OnKeyDown VK_BACK)]))
  /\ TextBox_OnChar this BS w
     = MkWorld (controls w) (trace w ++ [Call this (OnChar BS)]).
Proof.
  intros Hc Hd. split; [|split; [|split]].
  - intros ch Hch. rewrite (TextBox_OnChar_char _ _ _ _ _ Hc Hd Hch).
    split; [done|]. unfold new_events. rewrite trace_invoke. cbn [trace].
    rewrite drop_app_length. cbn. by rewrite Nat.eqb_refl.
  - intros t' a ->. rewrite (TextBox_OnKeyDown_back _ _ _ _ _ Hc Hd).
    split; [done|]. unfold new_events. rewrite trace_invoke. cbn [trace].
    rewrite drop_app_length. cbn. by rewrite Nat.eqb_refl.
  - intros ->. by apply (TextBox_OnKeyDown_empty _ _ c).
  - done.
Qed.

Lemma new_events_app (w w' : World U) new :
  trace w' = trace w ++ new -> new_events w w' = new.
Proof. intros Hw. unfold new_events. by rewrite Hw, drop_app_length. Qed.

Lemma TextBox_OnChar_trace this ch (w : World U) c :
  controls w !! this = Some c ->
  trace (TextBox_OnChar this ch w)
  = trace w ++ Call this (OnChar ch)
            :: (if (ch =? BS)%Z then [] else [Fire this ChangeEvent]).
Proof.
  intros Hc. unfold TextBox_OnChar. destruct (ch =? BS)%Z; cbn [negb]; [done|].
  erewrite trace_fire by (apply lookup_modify; exact Hc).
  cbn. by rewrite <- app_assoc.
Qed.

Lemma TextBox_OnKeyDown_trace this key (w : World U) c :
  controls w !! this = Some c ->
  trace (TextBox_OnKeyDown this key w)
  = trace w ++ Call this (OnKeyDown key)
            :: (if (key =? VK_BACK)%Z && negb (empty c)
                then [Fire this ChangeEvent] else []).
Proof.
  intros Hc. unfold TextBox_OnKeyDown. cbn. rewrite Hc.
  destruct ((key =? VK_BACK)%Z && negb (empty c)); [|done].
  erewrite trace_fire by (apply lookup_modify; exact Hc).
  cbn. by rewrite <- app_assoc.
Qed.

Lemma call_OnChar_calls this ch (w : World U) c :
  controls w !! this = Some c ->
  calls (new_events w (call_OnChar this ch w)) = [(this, OnChar ch)].
Proof.
  intros Hc. unfold call_OnChar.
  destruct (class_of this w);
    try (erewrite new_events_app; [|reflexivity]; done).
  erewrite new_events_app by (by apply (TextBox_OnChar_trace _ _ _ c)).
  by destruct (ch =? BS)%Z.
Qed.

Lemma call_OnKeyDown_calls this key (w : World U) c :
  controls w !! this = Some c ->
  calls (new_events w (call_OnKeyDown this key w)) = [(this, OnKeyDown key)].
Proof.
  intros Hc. unfold call_OnKeyDown.
  destruct (class_of this w);
    try (erewrite new_events_app; [|reflexivity]; done).
  erewrite new_events_app by (by apply (TextBox_OnKeyDown_trace _ _ _ c)).
  by destruct ((key =? VK_BACK)%Z && negb (empty c)).
Qed.

Lemma call_OnChar_frame {A} (proj : Control U -> A) this ch (w : World U) :
  preserves proj ->
  (forall a c, proj (push_back a c) = proj c) ->
  proj <$> controls (call_OnChar this ch w) = proj <$> controls w.
Proof.
  intros Hp Hpush. unfold call_OnChar. destruct (class_of this w); try done.
  unfold TextBox_OnChar. destruct (ch =? BS)%Z; cbn [negb]; [done|].
  rewrite controls_fire_proj by done. cbn. by apply fmap_alter_frame.
Qed.

Lemma call_OnKeyDown_frame {A} (proj : Control U -> A) this key (w : World U) :
  preserves proj ->
  (forall c, proj (pop_back c) = proj c) ->
  proj <$> controls (call_OnKeyDown this key w) = proj <$> controls w.
Proof.
  intros Hp Hpop. unfold call_OnKeyDown. destruct (class_of this w); try done.
  unfold TextBox_OnKeyDown. cbn. destruct (controls w !! this) as [c|]; [|done].
  destruct ((key =? VK_BACK)%Z && negb (empty c)); [|done].
  rewrite controls_fire_proj by done. cbn. by apply fmap_alter_frame.
Qed.

(** The text of a control other than a text box that receives the event
    is not touched. *)
Lemma call_OnChar_text this ch (w : World U) j :
  preserves (@text_of U) ->
  j <> this \/ (forall t, class_of this w <> IsTextBox t) ->
  (text_of <$> controls (call_OnChar this ch w)) !! j
  = (text_of <$> controls w) !! j.
Proof.
  intros Hp Hj. unfold call_OnChar.
  destruct (class_of this w) as [|t|t|] eqn:Hcl; try done.
  destruct Hj as [Hj|Hj]; [|by destruct (Hj t)].
  unfold TextBox_OnChar. destruct (ch =? BS)%Z; cbn [negb]; [done|].
  rewrite controls_fire_proj by done. cbn.
  by rewrite !list_lookup_fmap, list_lookup_alter_ne.
Qed.

Lemma call_OnKeyDown_text this key (w : World U) j :
  preserves (@text_of U) ->
  j <> this \/ (forall t, class_of this w <> IsTextBox t) ->
  (text_of <$> controls (call_OnKeyDown this key w)) !! j
  = (text_of <$> controls w) !! j.
Proof.
  intros Hp Hj. unfold call_OnKeyDown.
  destruct (class_of this w) as [|t|t|] eqn:Hcl; try done.
  destruct Hj as [Hj|Hj]; [|by destruct (Hj t)].
  unfold TextBox_OnKeyDown. cbn. destruct (controls w !! this) as [c|]; [|done].
  destruct ((key =? VK_BACK)%Z && negb (empty c)); [|done].
  rewrite controls_fire_proj by done. cbn.
  by rewrite !list_lookup_fmap, list_lookup_alter_ne.
Qed.

End TextEditing.

(** ** Keyboard routing *)

Section Keyboard.

Context {U : Type} `{!Closures U}.

(** C5: a character or key-down event goes to the first control in
    insertion order whose focused flag is set, and the only member function
    called is that control's; with no focused control the event leaves the
    state, trace included, as it was. *)
Theorem keyboard_routing (w : World U) (ch key : Z) :
  (forall i, first_focused (controls w) i ->
     Container_OnChar ch w = call_OnChar i (to_wchar_t ch) w
     /\ calls (new_events w (Container_OnChar ch w))
        = [(i, OnChar (to_wchar_t ch))]
     /\ Container_OnKeyDown key w = call_OnKeyDown i (to_unsigned key) w
     /\ calls (new_events w (Container_OnKeyDown key w))
        = [(i, OnKeyDown (to_unsigned key))])
  /\ (none_focused (controls w) ->
        Container_OnChar ch w = w /\ Container_OnKeyDown key w = w).
Proof.
  split.
  - intros i Hi. pose proof Hi as [(c & Hc & _) _].
    unfold Container_OnChar, Container_OnKeyDown.
    rewrite (focused_loop_first
               (fun control => call_OnChar control (to_wchar_t ch)) w i Hi).
    rewrite (focused_loop_first
               (fun control => call_OnKeyDown control (to_unsigned key)) w i Hi).
    rewrite (call_OnChar_calls _ _ _ _ Hc), (call_OnKeyDown_calls _ _ _ _ Hc).
    done.
  - intros Hn. unfold Container_OnChar, Container_OnKeyDown.
    rewrite (focused_loop_none
               (fun control => call_OnChar control (to_wchar_t ch)) w Hn).
    by rewrite (focused_loop_none
               (fun control => call_OnKeyDown control (to_unsigned key)) w Hn).
Qed.

End Keyboard.

(** ** Pointer events and repaint *)

Section Pointer.

Context {U : Type} `{!Closures U}.

Lemma fired_app k i (l1 l2 : list Event) :
  fired k i (l1 ++ l2) = fired k i l1 + fired k i l2.
Proof. unfold fired. by rewrite List.filter_app, length_app. Qed.

Lemma imap_shift {A B} (f : nat -> A -> B) (k : nat) (l : list A) :
  imap (fun i => f (k + S i)) l = imap (fun i => f (S k + i)) l.
Proof. apply imap_ext. intros i a _. f_equal. lia. Qed.

Lemma fired_release_calls k i (flags : list bool) (off : nat) :
  fired k i (concat (imap (fun j => release_calls (off + j)) flags))
  = match k with
    | ClickEvent =>
        if decide (off <= i) then
          match flags !! (i - off) with Some true => 1 | _ => 0 end
        else 0
    | ChangeEvent => 0
    end.
Proof.
  revert off. induction flags as [|b flags IH]; intros off.
  - cbn. destruct k; [|done]. by destruct (decide _).
  - cbn [imap concat]. rewrite fired_app.
    change (imap ((fun j => release_calls (off + j)) ∘ S) flags)
      with (imap (fun j => release_calls (off + S j)) flags).
    rewrite (imap_shift release_calls), IH.
    destruct k; [|by destruct b].
    rewrite Nat.add_0_r.
    destruct (decide (off <= i)) as [Hle|Hgt].
    + destruct (decide (off = i)) as [->|Hne].
      * rewrite Nat.sub_diag. cbn [lookup list_lookup].
        destruct (decide (S i <= i)); [lia|].
        destruct b; cbn; [|done]. by rewrite Nat.eqb_refl.
      * destruct (decide (S off <= i)); [|lia].
        replace (i - off) with (S (i - S off)) by lia. cbn [lookup list_lookup].
        assert (Hneq : (off =? i) = false) by (apply Nat.eqb_neq; lia).
        destruct b; cbn; [|done]. by rewrite Hneq.
    + destruct (decide (S off <= i)); [lia|].
      assert (Hneq : (off =? i) = false) by (apply Nat.eqb_neq; lia).
      destruct b; cbn; [|done]. by rewrite Hneq.
Qed.

Lemma fired_click_calls k i p (cs : list (Control U)) (off : nat) :
  fired k i (concat (imap (fun j => click_calls p (off + j)) cs)) = 0.
Proof.
  revert off. induction cs as [|c cs IH]; intros off; [done|].
  cbn [imap concat]. rewrite fired_app.
  change (imap ((fun j => click_calls p (off + j)) ∘ S) cs)
    with (imap (fun j => click_calls p (off + S j)) cs).
  rewrite (imap_shift (click_calls p)), IH.
  unfold click_calls.
  destruct (PointInRectangle (_area c) p); [by destruct k|].
  destruct (_onFocus c); by destruct k.
Qed.

Lemma fired_click_calls_0 k i p (cs : list (Control U)) :
  fired k i (concat (imap (click_calls p) cs)) = 0.
Proof. exact (fired_click_calls k i p cs 0). Qed.


(** C7: after a pointer move every control's hover flag is the hit test of
    the point against its bounds, no control being skipped; the calls made
    are, control by control, [OnHover] where the point is inside and the
    flag was clear, [LeaveHover] where it is outside and the flag was set,
    and nothing where the flag already has its value. *)
Theorem pointer_move_hover (x y : Z) (w : World U) :
  controls (Container_OnHover x y w)
  = (fun c : Control U =>
       set_onHover (PointInRectangle (_area c) (Point2U x y)) c)
      <$> controls w
  /\ (forall i c, controls w !! i = Some c ->
        exists c', controls (Container_OnHover x y w) !! i = Some c'
                   /\ _area c' = _area c
                   /\ _onHover c' = PointInRectangle (_area c') (Point2U x y))
  /\ new_events w (Container_OnHover x y w)
     = concat (imap (fun i (c : Control U) =>
                       if PointInRectangle (_area c) (Point2U x y) then
                         if _onHover c then []
                         else [Call i (OnHover (Point2U x y))]
                       else
                         if _onHover c then [Call i LeaveHover] else [])
                    (controls w)).
Proof.
  destruct (Container_OnHover_spec x y w) as [Hc Ht].
  split; [exact Hc|]. split.
  - intros i c Hi. rewrite Hc, list_lookup_fmap, Hi. cbn. eauto.
  - by apply new_events_app.
Qed.


(** C6, as the code has it: when the closures leave the pressed flags alone, a
    pointer-up clears every pressed flag and invokes the click callback of a
    control once if it was pressed and not at all otherwise, no position
    being involved; a pointer-down followed by a pointer-up invokes the click
    callback of a control once if the point is inside it or it was pressed
    before, so that a pointer-down inside a control followed by a pointer-up
    invokes its click callback once and leaves it not pressed; a
    pointer-down outside every control followed by a pointer-up invokes the
    click callback of exactly the controls that were pressed before the
    pointer-down, once each: a pointer-down clears no pressed flag. *)
Theorem pointer_up_clicks (w : World U) :
  preserves (@_onClick U) ->
  (forall i c', controls (Container_LeaveClick w) !! i = Some c' ->
     _onClick c' = false)
  /\ (forall i c, controls w !! i = Some c ->
        fired ClickEvent i (new_events w (Container_LeaveClick w))
        = if _onClick c then 1 else 0)
  /\ (forall x y i c,
        controls w !! i = Some c ->
        fired ClickEvent i
          (new_events w (Container_LeaveClick (Container_OnClick x y w)))
        = if PointInRectangle (_area c) (Point2U x y) || _onClick c
          then 1 else 0)
  /\ (forall x y i c,
        controls w !! i = Some c ->
        PointInRectangle (_area c) (Point2U x y) = true ->
        fired ClickEvent i
          (new_events w (Container_LeaveClick (Container_OnClick x y w))) = 1
        /\ exists c',
            controls (Container_LeaveClick (Container_OnClick x y w)) !! i
            = Some c' /\ _onClick c' = false)
  /\ (forall x y,
        (forall i c, controls w !! i = Some c ->
           PointInRectangle (_area c) (Point2U x y) = false) ->
        forall i,
          fired ClickEvent i
            (new_events w (Container_LeaveClick (Container_OnClick x y w)))
          = match controls w !! i with
            | Some c => if _onClick c then 1 else 0
            | None => 0
            end).
Proof.
  intros Hp.
  assert (Hclear : forall (w0 : World U) i c',
             controls (Container_LeaveClick w0) !! i = Some c' ->
             _onClick c' = false).
  { intros w0 i c' Hi. destruct (Container_LeaveClick_spec w0 Hp) as [Hc _].
    assert (Hl : (_onClick <$> controls (Container_LeaveClick w0)) !! i
                 = Some (_onClick c')) by (by rewrite list_lookup_fmap, Hi).
    rewrite Hc, list_lookup_fmap in Hl.
    destruct (controls w0 !! i); by inversion Hl. }
  assert (Hcount : forall (w0 : World U) i,
             fired ClickEvent i (new_events w0 (Container_LeaveClick w0))
             = match controls w0 !! i with
               | Some c => if _onClick c then 1 else 0
               | None => 0
               end).
  { intros w0 i. destruct (Container_LeaveClick_spec w0 Hp) as [_ Ht].
    rewrite (new_events_app _ _ _ Ht).
    rewrite (fired_release_calls ClickEvent i _ 0).
    destruct (decide (0 <= i)); [|lia].
    rewrite Nat.sub_0_r, list_lookup_fmap.
    destruct (controls w0 !! i) as [c|]; [|done]. cbn.
    by destruct (_onClick c). }
  assert (Hseq : forall x y i,
             fired ClickEvent i
               (new_events w (Container_LeaveClick (Container_OnClick x y w)))
             = match controls (Container_OnClick x y w) !! i with
               | Some c => if _onClick c then 1 else 0
               | None => 0
               end).
  { intros x y i. rewrite <- Hcount.
    destruct (Container_OnClick_spec x y w) as [_ Ht1].
    destruct (Container_LeaveClick_spec (Container_OnClick x y w) Hp)
      as [_ Ht2].
    rewrite (new_events_app _ _ _ Ht2).
    erewrite new_events_app; [|by rewrite Ht2, Ht1, <- app_assoc].
    rewrite fired_app.
    by rewrite fired_click_calls_0. }
  split; [apply Hclear|]. split; [|split; [|split]].
- intros i c Hi. by rewrite Hcount, Hi.
- intros x y i c Hi. rewrite Hseq.
  destruct (Container_OnClick_spec x y w) as [Hc _].
  rewrite Hc, list_lookup_fmap, Hi. cbn. unfold after_click.
  by destruct (PointInRectangle _ _).
  - intros x y i c Hi Hin. split.
    + rewrite Hseq. destruct (Container_OnClick_spec x y w) as [Hc _].
      rewrite Hc, list_lookup_fmap, Hi. cbn. unfold after_click.
      by rewrite Hin.
    + destruct (Container_LeaveClick_spec (Container_OnClick x y w) Hp)
        as [Hc _].
      destruct (Container_OnClick_spec x y w) as [Hc1 _].
      assert (Hlen : i < length (controls
                       (Container_LeaveClick (Container_OnClick x y w)))).
      { rewrite <- (length_fmap _onClick), Hc, length_fmap, Hc1, length_fmap.
        by eapply lookup_lt_Some. }
      destruct (lookup_lt_is_Some_2 _ _ Hlen) as [c' Hc'].
      exists c'. split; [done|]. by eapply Hclear.
  - intros x y Hout i. rewrite Hseq.
    destruct (Container_OnClick_spec x y w) as [Hc _].
    rewrite Hc, list_lookup_fmap.
    destruct (controls w !! i) as [c|] eqn:Hi; [|done]. cbn.
    unfold after_click. by rewrite (Hout i c Hi).
Qed.

End Pointer.

(** ** Callbacks never registered *)

Section Defaults.

Context {U : Type} `{!Closures U}.

(** C9: construction initialises both callbacks of every control to the
    no-op, invoking the no-op changes nothing, and so a pointer-up on a
    pressed control or an edit of a text box whose callback was never
    registered only clears the flag, respectively only edits the text;
    every member function is a total function of the state. *)
Theorem default_callbacks_are_noops :
  (forall area d (w : World U),
     exists c, controls (new_Control area d w).2 !! (new_Control area d w).1
               = Some c
               /\ _clickEvent c = NoOp /\ _changeEvent c = NoOp)
  /\ (forall w : World U, invoke NoOp w = w)
  /\ (forall this (w : World U) c,
        controls w !! this = Some c -> _clickEvent c = NoOp ->
        Control_LeaveClick this w
        = MkWorld (<[this := set_onClick false c]> (controls w))
                  (trace w ++ [Call this LeaveClick; Fire this ClickEvent]))
  /\ (forall this (w : World U) c t ch,
        controls w !! this = Some c -> derived c = IsTextBox t ->
        _changeEvent c = NoOp -> ch <> BS ->
        TextBox_OnChar this ch w
        = MkWorld (<[this := set_derived (IsTextBox (t ++ [ch])) c]>
                     (controls w))
                  (trace w ++ [Call this (OnChar ch); Fire this ChangeEvent]))
  /\ (forall this (w : World U) c t a,
        controls w !! this = Some c -> derived c = IsTextBox (t ++ [a]) ->
        _changeEvent c = NoOp ->
        TextBox_OnKeyDown this VK_BACK w
        = MkWorld (<[this := set_derived (IsTextBox t) c]> (controls w))
                  (trace w ++ [Call this (OnKeyDown VK_BACK);
                               Fire this ChangeEvent])).
Proof.
  split; [|split; [done|split; [|split]]].
  - intros area d w. eexists. cbn.
    rewrite lookup_app_r, Nat.sub_diag by lia. cbn. done.
  - intros this w c Hc Hno. unfold Control_LeaveClick.
    erewrite fire_NoOp; [|by apply lookup_modify|done].
    unfold emit, modify. cbn.
    by rewrite (alter_as_insert _ _ _ _ Hc), <- app_assoc.
  - intros this w c t ch Hc Hd Hno Hch.
    rewrite (TextBox_OnChar_char _ _ _ _ _ Hc Hd Hch). by rewrite Hno.
  - intros this w c t a Hc Hd Hno.
    rewrite (TextBox_OnKeyDown_back _ _ _ _ _ Hc Hd). by rewrite Hno.
Qed.

End Defaults.

(** ** What each kind of event leaves alone *)

Section Frames.

Context {U : Type} `{!Closures U}.

Lemma shape_push_back a (c : Control U) : shape (push_back a c) = shape c.
Proof. unfold push_back. by destruct (derived c). Qed.

Lemma shape_pop_back (c : Control U) : shape (pop_back c) = shape c.
Proof. unfold pop_back. by destruct (derived c). Qed.

Lemma fmap_fmap_frame {A} (proj : Control U -> A) (f : Control U -> Control U)
      (cs : list (Control U)) :
  (forall c, proj (f c) = proj c) -> proj <$> (f <$> cs) = proj <$> cs.
Proof.
  intros Hf. rewrite <- list_fmap_compose. apply list_fmap_ext.
  intros i c _. apply Hf.
Qed.

Lemma Container_OnChar_frame {A} (proj : Control U -> A) ch (w : World U) :
  preserves proj ->
  (forall a c, proj (push_back a c) = proj c) ->
  proj <$> controls (Container_OnChar ch w) = proj <$> controls w.
Proof.
  intros Hp Hpush. unfold Container_OnChar.
  destruct (focused_cases (controls w)) as [Hn|[i Hi]].
  - by rewrite (focused_loop_none
                  (fun control => call_OnChar control (to_wchar_t ch)) w Hn).
  - rewrite (focused_loop_first
               (fun control => call_OnChar control (to_wchar_t ch)) w i Hi).
    by apply call_OnChar_frame.
Qed.

Lemma Container_OnKeyDown_frame {A} (proj : Control U -> A) key (w : World U) :
  preserves proj ->
  (forall c, proj (pop_back c) = proj c) ->
  proj <$> controls (Container_OnKeyDown key w) = proj <$> controls w.
Proof.
  intros Hp Hpop. unfold Container_OnKeyDown.
  destruct (focused_cases (controls w)) as [Hn|[i Hi]].
  - by rewrite (focused_loop_none
                  (fun control => call_OnKeyDown control (to_unsigned key)) w Hn).
  - rewrite (focused_loop_first
               (fun control => call_OnKeyDown control (to_unsigned key)) w i Hi).
    by apply call_OnKeyDown_frame.
Qed.

Lemma text_of_set_onHover b (c : Control U) : text_of (set_onHover b c) = text_of c.
Proof. done. Qed.

Lemma text_of_after_click p (c : Control U) : text_of (after_click p c) = text_of c.
Proof. unfold after_click. by destruct (PointInRectangle _ _). Qed.

(** C10: when the closures leave bounds and flags alone, a character or
    key-down event leaves the bounds and the three flags of every control as
    they were; when the closures leave the texts alone, such an event can
    change the text of the first focused control only, and only if that is
    a text box, and pointer-move, pointer-down and pointer-up leave every
    text as it was. *)
Theorem dispatch_frames (w : World U) :
  (preserves (@shape U) ->
   forall ch key,
     shape <$> controls (Container_OnChar ch w) = shape <$> controls w
     /\ shape <$> controls (Container_OnKeyDown key w) = shape <$> controls w)
  /\ (preserves (@text_of U) ->
      forall ch key j,
        ~ (first_focused (controls w) j
           /\ exists t, class_of j w = IsTextBox t) ->
        (text_of <$> controls (Container_OnChar ch w)) !! j
        = (text_of <$> controls w) !! j
        /\ (text_of <$> controls (Container_OnKeyDown key w)) !! j
           = (text_of <$> controls w) !! j)
  /\ (forall x y,
        text_of <$> controls (Container_OnHover x y w) = text_of <$> controls w
        /\ text_of <$> controls (Container_OnClick x y w)
           = text_of <$> controls w)
  /\ (preserves (@text_of U) ->
      text_of <$> controls (Container_LeaveClick w) = text_of <$> controls w).
Proof.
  split; [|split; [|split]].
  - intros Hp ch key. split.
    + apply Container_OnChar_frame; [done|]. apply shape_push_back.
    + apply Container_OnKeyDown_frame; [done|]. apply shape_pop_back.
  - intros Hp ch key j Hj. unfold Container_OnChar, Container_OnKeyDown.
    destruct (focused_cases (controls w)) as [Hn|[i Hi]].
    + rewrite (focused_loop_none
                 (fun control => call_OnChar control (to_wchar_t ch)) w Hn).
      by rewrite (focused_loop_none
                 (fun control => call_OnKeyDown control (to_unsigned key)) w Hn).
    + rewrite (focused_loop_first
                 (fun control => call_OnChar control (to_wchar_t ch)) w i Hi).
      rewrite (focused_loop_first
                 (fun control => call_OnKeyDown control (to_unsigned key)) w i Hi).
      assert (Hor : j <> i \/ (forall t, class_of i w <> IsTextBox t)).
      { destruct (decide (j = i)) as [->|Hne]; [|by left].
        right. intros t Ht. apply Hj. split; [done|]. by exists t. }
      split; [by apply call_OnChar_text|by apply call_OnKeyDown_text].
  - intros x y. destruct (Container_OnHover_spec x y w) as [-> _].
    destruct (Container_OnClick_spec x y w) as [-> _].
    split; apply fmap_fmap_frame; intros c.
    + apply text_of_set_onHover.
    + apply text_of_after_click.
  - intros Hp. by apply Container_LeaveClick_frame.
Qed.

End Frames.

(** ** Focus *)

Section Focus.

Context {U : Type} `{!Closures U}.

Lemma bounds_and_focus_push_back a (c : Control U) :
  bounds_and_focus (push_back a c) = bounds_and_focus c.
Proof. unfold push_back. by destruct (derived c). Qed.

Lemma bounds_and_focus_pop_back (c : Control U) :
  bounds_and_focus (pop_back c) = bounds_and_focus c.
Proof. unfold pop_back. by destruct (derived c). Qed.

(** Every message either leaves bounds and focused flags as they are, or
    is a pointer-down and sets the focused flag of each control to the hit
    test of its point. *)
Lemma WndProc_bounds_and_focus (message : Message) (w : World U) :
  preserves (@bounds_and_focus U) ->
  bounds_and_focus <$> controls (WndProc message w)
  = bounds_and_focus <$> controls w
  \/ exists p,
      bounds_and_focus <$> controls (WndProc message w)
      = (fun c : Control U => (_area c, PointInRectangle (_area c) p))
          <$> controls w.
Proof.
  intros Hp. destruct message as [|x y|x y| |ch|key]; cbn [WndProc].
  - left. unfold DrawRectangle.
    change (controls (emit RT_EndDraw ?a)) with (controls a).
    by destruct (Container_Paint_spec (emit RT_Clear (emit RT_BeginDraw w)))
      as [-> _].
  - left. destruct (Container_OnHover_spec (to_unsigned x) (to_unsigned y) w)
      as [-> _].
    by apply fmap_fmap_frame.
  - right. exists (Point2U (to_unsigned x) (to_unsigned y)).
    destruct (Container_OnClick_spec (to_unsigned x) (to_unsigned y) w)
      as [-> _].
    rewrite <- list_fmap_compose. apply list_fmap_ext. intros i c _. cbn.
    unfold after_click, bounds_and_focus.
    by destruct (PointInRectangle _ _).
  - left. by apply Container_LeaveClick_frame.
  - left. apply Container_OnChar_frame; [done|].
    apply bounds_and_focus_push_back.
  - left. apply Container_OnKeyDown_frame; [done|].
    apply bounds_and_focus_pop_back.
Qed.

Lemma run_focus_invariant (messages : list Message) (w : World U) :
  preserves (@bounds_and_focus U) ->
  (exists p, forall i c, controls w !! i = Some c -> _onFocus c = true ->
                         PointInRectangle (_area c) p = true) ->
  _area <$> controls (run messages w) = _area <$> controls w
  /\ exists p, forall i c, controls (run messages w) !! i = Some c ->
                           _onFocus c = true ->
                           PointInRectangle (_area c) p = true.
Proof.
  intros Hp. revert w.
  induction messages as [|m messages IH]; intros w Hw; [done|].
  cbn. change (foldl _ ?a messages) with (run messages a).
  assert (Hstep : _area <$> controls (WndProc m w) = _area <$> controls w
                  /\ exists p, forall i c,
                       controls (WndProc m w) !! i = Some c ->
                       _onFocus c = true ->
                       PointInRectangle (_area c) p = true).
  { destruct (WndProc_bounds_and_focus m w Hp) as [Heq|[p Heq]].
    - split.
      + change (@_area U) with (fst ∘ (@bounds_and_focus U)).
        by rewrite !(list_fmap_compose bounds_and_focus fst), Heq.
      + destruct Hw as [p Hw]. exists p. intros i c Hi Hf.
        assert (Hl : (bounds_and_focus <$> controls w) !! i
                     = Some (bounds_and_focus c))
          by (by rewrite <- Heq, list_lookup_fmap, Hi).
        rewrite list_lookup_fmap in Hl.
        destruct (controls w !! i) as [c0|] eqn:Hc0; [|done].
        assert (Hbf : bounds_and_focus c0 = bounds_and_focus c)
          by (cbn in Hl; congruence).
        unfold bounds_and_focus in Hbf. injection Hbf as Ha Hfoc.
        rewrite <- Ha. apply (Hw i c0 Hc0). congruence.
    - split.
      + change (@_area U) with (fst ∘ (@bounds_and_focus U)).
        rewrite !(list_fmap_compose bounds_and_focus fst), Heq.
        rewrite <- !list_fmap_compose. by apply list_fmap_ext.
      + exists p. intros i c Hi Hf.
        assert (Hl : (bounds_and_focus <$> controls (WndProc m w)) !! i
                     = Some (bounds_and_focus c))
          by (by rewrite list_lookup_fmap, Hi).
        rewrite Heq, list_lookup_fmap in Hl.
        destruct (controls w !! i) as [c0|]; [|done].
        assert (Hbf : (_area c0, PointInRectangle (_area c0) p)
                      = bounds_and_focus c) by (cbn in Hl; congruence).
        unfold bounds_and_focus in Hbf. injection Hbf as Ha Hfoc.
        congruence. }
  destruct Hstep as [Harea Hfocus].
  destruct (IH _ Hfocus) as [IHa IHf].
  split; [by rewrite IHa|done].
Qed.

(** C2, as the code has it: when no point is inside the bounds of two
    registered controls, and the closures leave bounds and focused flags
    alone, every state reached from the registry as constructed has at most
    one focused control; in any registry, a pointer-down focuses every
    control whose bounds contain the point, however many there are. *)
Theorem single_focus_without_overlap (w0 : World U) (messages : list Message) :
  preserves (@bounds_and_focus U) ->
  initial (controls w0) ->
  non_overlapping (controls w0) ->
  at_most_one_focused (controls (run messages w0))
  /\ (forall x y (w : World U) i c,
        controls w !! i = Some c ->
        PointInRectangle (_area c) (Point2U (to_unsigned x) (to_unsigned y))
        = true ->
        exists c',
          controls (WndProc (WM_LBUTTONDOWN x y) w) !! i = Some c'
          /\ _onFocus c' = true).
Proof.
  intros Hp Hinit Hno. split; cycle 1.
  { intros x y w i c Hi Hin. cbn [WndProc].
    destruct (Container_OnClick_spec (to_unsigned x) (to_unsigned y) w)
      as [-> _].
    rewrite list_lookup_fmap, Hi. cbn. eexists. split; [reflexivity|].
    unfold after_click. by rewrite Hin. }
  destruct (run_focus_invariant messages w0 Hp) as [Harea [p Hfocus]].
  { exists (Point2U 0 0). intros i c Hi Hf.
    destruct (Hinit i c Hi) as (_ & _ & Hnf). congruence. }
  intros i j ci cj Hi Hj Hfi Hfj.
  assert (Hsame : forall k c, controls (run messages w0) !! k = Some c ->
                    exists c0, controls w0 !! k = Some c0 /\ _area c0 = _area c).
  { intros k c Hk.
    assert (Hl : (_area <$> controls w0) !! k = Some (_area c))
      by (by rewrite <- Harea, list_lookup_fmap, Hk).
    rewrite list_lookup_fmap in Hl.
    destruct (controls w0 !! k) as [c0|]; [|done].
    exists c0. split; [done|]. by inversion Hl. }
  destruct (Hsame i ci Hi) as (c0i & H0i & Hai).
  destruct (Hsame j cj Hj) as (c0j & H0j & Haj).
  apply (Hno i j c0i c0j p H0i H0j).
  - rewrite Hai. by eapply Hfocus.
  - rewrite Haj. by eapply Hfocus.
Qed.

End Focus.

(** ** The application *)

Section Application.

Local Ltac bound := unfold reverse_bound; do 7 eexists; reflexivity.

Lemma WndProc_reverse_bound (message : Message) (w : World Lambda) :
  reverse_bound (controls w) -> reverse_bound (controls (WndProc message w)).
Proof.
  destruct w as [cs tr]. cbn [controls].
  intros (h1 & k1 & f1 & h2 & k2 & f2 & t & ->).
  destruct message as [|x y|x y| |ch|key]; cbn [WndProc].
  - unfold DrawRectangle.
    change (controls (emit RT_EndDraw ?a)) with (controls a).
    match goal with |- context [Container_Paint ?a] =>
      destruct (Container_Paint_spec a) as [-> _] end.
    cbn. bound.
  - match goal with |- context [Container_OnHover ?a ?b ?c] =>
      destruct (Container_OnHover_spec a b c) as [-> _] end.
    cbn. bound.
  - match goal with |- context [Container_OnClick ?a ?b ?c] =>
      destruct (Container_OnClick_spec a b c) as [-> _] end.
    cbn. unfold after_click.
    do 2 destruct (PointInRectangle _ _); cbn; bound.
  - destruct k1, k2; cbn; bound.
  - unfold Container_OnChar, for_each_break.
    destruct f1, f2; cbn -[to_wchar_t Z.eqb rev]; try bound.
    all: unfold call_OnChar, TextBox_OnChar; cbn -[to_wchar_t Z.eqb rev];
      destruct (to_wchar_t ch =? BS)%Z; cbn -[to_wchar_t rev]; bound.
  - unfold Container_OnKeyDown, for_each_break.
    destruct f1, f2; cbn -[to_unsigned Z.eqb rev]; try bound.
    all: unfold call_OnKeyDown, TextBox_OnKeyDown; cbn -[to_unsigned Z.eqb rev];
      destruct (to_unsigned key =? VK_BACK)%Z; destruct t as [|a t];
      cbn -[to_unsigned removelast rev]; bound.
Qed.

Lemma run_reverse_bound (messages : list Message) (w : World Lambda) :
  reverse_bound (controls w) -> reverse_bound (controls (run messages w)).
Proof.
  revert w. induction messages as [|m messages IH]; intros w Hw; [done|].
  apply IH. by apply WndProc_reverse_bound.
Qed.

Lemma ui_world_reverse_bound : reverse_bound (controls ui_world).
Proof. exists false, false, false, false, false, false, []. reflexivity. Qed.

(** C1, as the code has it: in every state the program reaches after
    [UserInterface], the label holds the reverse of the text of the text
    box; clicking into the empty text box and typing 'c', 'a', 't' leaves
    the label holding "tac"; one backspace then removes the 't', and the
    label holds "ac". *)
Theorem reverse_binding :
  (forall messages,
     shown ui_output (run messages ui_world)
     = Some (rev (TextBox_Text ui_input (controls (run messages ui_world)))))
  /\ shown ui_input (run type_cat ui_world) = Some (L "cat")
  /\ shown ui_output (run type_cat ui_world) = Some (L "tac")
  /\ shown ui_input (run (type_cat ++ [WM_KEYDOWN VK_BACK]) ui_world)
     = Some (L "ca")
  /\ shown ui_output (run (type_cat ++ [WM_KEYDOWN VK_BACK]) ui_world)
     = Some (L "ac").
Proof.
  split; [|repeat split; vm_compute; reflexivity].
  intros messages.
  destruct (run_reverse_bound messages ui_world ui_world_reverse_bound)
    as (h1 & k1 & f1 & h2 & k2 & f2 & t & Hcs).
  unfold shown. rewrite Hcs. reflexivity.
Qed.

(** C1 as stated fails in its last scenario: after "cat" and one backspace
    the label does not hold "at". *)
Lemma backspace_label_not_at :
  shown ui_output (run (type_cat ++ [WM_KEYDOWN VK_BACK]) ui_world)
  <> Some (L "at").
Proof. vm_compute. discriminate. Qed.

(** C6 as stated fails in its last part: with the text box pressed by a
    pointer-down at (30, 30), a pointer-down at (300, 300), outside the
    bounds of every control, followed by a pointer-up invokes the click
    callback of the text box. *)
Lemma outside_pointer_down_keeps_press :
  (forall i c,
     controls (run [WM_LBUTTONDOWN 30 30] ui_world) !! i = Some c ->
     PointInRectangle (_area c)
       (Point2U (to_unsigned 300) (to_unsigned 300)) = false)
  /\ fired ClickEvent ui_input
       (new_events (run [WM_LBUTTONDOWN 30 30] ui_world)
          (run [WM_LBUTTONDOWN 30 30; WM_LBUTTONDOWN 300 300; WM_LBUTTONUP]
               ui_world)) = 1.
Proof.
  split; [|vm_compute; reflexivity].
  assert (Hc : _area <$> controls (run [WM_LBUTTONDOWN 30 30] ui_world)
               = _area <$> controls ui_world) by (vm_compute; reflexivity).
  intros i c Hi.
  assert (Hl : (_area <$> controls ui_world) !! i = Some (_area c))
    by (by rewrite <- Hc, list_lookup_fmap, Hi).
  destruct i as [|[|i]]; cbn in Hl; inversion Hl as [Heq];
    vm_compute; reflexivity.
Qed.

(** The condition on the closures is needed: a click callback that presses
    its control again leaves it pressed after the pointer-up, and every
    further pointer-up invokes the callback again. *)
Lemma pressing_callback_stays_pressed :
  _onClick <$> controls (run [WM_LBUTTONDOWN 120 40; WM_LBUTTONUP]
                             pressing_world) = [true]
  /\ fired ClickEvent 0
       (trace (run [WM_LBUTTONDOWN 120 40; WM_LBUTTONUP; WM_LBUTTONUP]
                   pressing_world)) = 2.
Proof. split; vm_compute; reflexivity. Qed.

(** C2 as stated fails: a pointer-down inside the bounds of two
    overlapping controls leaves both focused. *)
Lemma overlapping_controls_both_focused :
  initial (controls overlapping_world)
  /\ ~ at_most_one_focused
        (controls (run [WM_LBUTTONDOWN 120 40] overlapping_world)).
Proof.
  split.
  - intros [|[|i]] c Hi; cbn in Hi; inversion Hi; subst; done.
  - intros Hone.
    assert (Hc : controls (run [WM_LBUTTONDOWN 120 40] overlapping_world)
                 = set_onFocus true <$>
                     (set_onClick true <$> controls overlapping_world))
      by (vm_compute; reflexivity).
    rewrite Hc in Hone.
    specialize (Hone 0 1 _ _ eq_refl eq_refl eq_refl eq_refl). discriminate.
Qed.

(** *** The closures of the program and the inert closures *)

Lemma Lambda_preserves {A} (proj : Control Lambda -> A) :
  (forall t c, proj (set_derived (IsLabel t) c) = proj c) -> preserves proj.
Proof.
  intros Hproj [input output] cs. cbn. unfold Label_Text.
  apply fmap_alter_frame. intros c. destruct (derived c); auto.
Qed.

Lemma Inert_preserves {A} (proj : Control Inert -> A) : preserves proj.
Proof. intros f cs. reflexivity. Qed.

Lemma ltb_positive m1 e1 m2 e2 :
  Float32.ltb (S754_finite false m1 e1) (S754_finite false m2 e2) = true ->
  (e1 < e2)%Z \/ (e1 = e2 /\ (m1 < m2)%positive).
Proof.
  unfold Float32.ltb, SFltb. cbn.
  destruct (Z.compare_spec e1 e2) as [He|He|He]; [|by left|done].
  intros Hm. right. split; [done|].
  change (Pos.compare_cont Eq m1 m2) with (m1 ?= m2)%positive in Hm.
  revert Hm. unfold Pos.lt. by destruct (m1 ?= m2)%positive.
Qed.

(** No [float] is above 60 and below 50. *)
Lemma no_float_above_60_below_50 (f : Float32.float) :
  Float32.ltb (Float32.lit 60) f = true ->
  Float32.ltb f (Float32.lit 50) = true -> False.
Proof.
  destruct f as [s|s| |s m e]; try (by destruct s); try done.
  destruct s; [done|].
  change (Float32.lit 60) with (S754_finite false 15728640 (-18)).
  change (Float32.lit 50) with (S754_finite false 13107200 (-18)).
  intros H1 H2. apply ltb_positive in H1, H2.
  destruct H1 as [H1|[H1 H1']], H2 as [H2|[H2 H2']];
    [exfalso; exact (Z.lt_irrefl _ (Z.lt_trans _ _ _ H2 H1))
    |subst e; exact (Z.lt_irrefl _ H1)
    |subst e; exact (Z.lt_irrefl _ H2)|].
  pose proof (Pos.lt_trans _ _ _ H1' H2') as Hlt. discriminate Hlt.
Qed.

Lemma ui_world_non_overlapping : non_overlapping (controls ui_world).
Proof.
  intros [|[|i]] [|[|j]] ci cj p Hi Hj; cbn in Hi, Hj; try done.
  - inversion Hi; inversion Hj; subst; clear Hi Hj.
    unfold PointInRectangle. cbn [_area top bottom left right].
    rewrite !andb_true_iff. intros (((_ & Hb) & _) & _) (((Ht & _) & _) & _).
    by destruct (no_float_above_60_below_50 _ Ht Hb).
  - inversion Hi; inversion Hj; subst; clear Hi Hj.
    unfold PointInRectangle. cbn [_area top bottom left right].
    rewrite !andb_true_iff. intros (((Ht & _) & _) & _) (((_ & Hb) & _) & _).
    by destruct (no_float_above_60_below_50 _ Ht Hb).
Qed.

Lemma ui_world_initial : initial (controls ui_world).
Proof. intros [|[|i]] c Hi; cbn in Hi; inversion Hi; subst; done. Qed.

End Application.

(** ** The statements at concrete states *)

Section Instances.

Lemma single_focus_without_overlap_witness :
  preserves (@bounds_and_focus Lambda)
  /\ initial (controls ui_world)
  /\ non_overlapping (controls ui_world)
  /\ at_most_one_focused
       (controls (run (type_cat ++ [WM_LBUTTONDOWN 30 70]) ui_world)).
Proof.
  assert (Hp : preserves (@bounds_and_focus Lambda))
    by (apply Lambda_preserves; reflexivity).
  split; [exact Hp|].
  split; [exact ui_world_initial|].
  split; [exact ui_world_non_overlapping|].
  exact (proj1 (single_focus_without_overlap ui_world
                  (type_cat ++ [WM_LBUTTONDOWN 30 70]) Hp
                  ui_world_initial ui_world_non_overlapping)).
Defined.

Lemma TextBox_edits_witness :
  exists c,
    controls (run type_cat ui_world) !! ui_input = Some c
    /\ derived c = IsTextBox (L "cat")
    /\ fired ChangeEvent ui_input
         (new_events (run type_cat ui_world)
            (TextBox_OnChar ui_input (wchar "s") (run type_cat ui_world))) = 1
    /\ fired ChangeEvent ui_input
         (new_events (run type_cat ui_world)
            (TextBox_OnKeyDown ui_input VK_BACK (run type_cat ui_world))) = 1.
Proof.
  eexists. split; [vm_compute; reflexivity|]. split; [reflexivity|].
  match goal with |- context [TextBox_OnChar ?i _ ?w] =>
    destruct (TextBox_edits i w _ (L "cat") eq_refl eq_refl)
      as (Hchar & Hback & _) end.
  split.
  - apply (Hchar (wchar "s")). discriminate.
  - apply (Hback (L "ca") (wchar "t")). reflexivity.
Defined.

Lemma keyboard_routing_witness :
  first_focused (controls (run type_cat ui_world)) ui_input
  /\ Container_OnChar (wchar "s") (run type_cat ui_world)
     = call_OnChar ui_input (to_wchar_t (wchar "s")) (run type_cat ui_world)
  /\ none_focused (controls ui_world)
  /\ Container_OnKeyDown VK_BACK ui_world = ui_world.
Proof.
  assert (Hf : first_focused (controls (run type_cat ui_world)) ui_input).
  { split; [eexists; split; [vm_compute; reflexivity|reflexivity]|].
    intros j c Hj. unfold ui_input in Hj. cbn in Hj. lia. }
  assert (Hn : none_focused (controls ui_world)).
  { intros [|[|j]] c Hj; cbn in Hj; inversion Hj; subst; done. }
  split; [exact Hf|]. split; [|split; [exact Hn|]].
  - exact (proj1 (proj1 (keyboard_routing (run type_cat ui_world)
                           (wchar "s") VK_BACK) ui_input Hf)).
  - exact (proj2 (proj2 (keyboard_routing ui_world (wchar "s") VK_BACK) Hn)).
Defined.

Lemma pointer_up_clicks_witness :
  preserves (@_onClick Lambda)
  /\ fired ClickEvent ui_input
       (new_events ui_world
          (Container_LeaveClick (Container_OnClick 30 30 ui_world))) = 1
  /\ fired ClickEvent ui_input
       (new_events ui_world
          (Container_LeaveClick (Container_OnClick 300 300 ui_world))) = 0
  /\ fired ClickEvent ui_input
       (new_events (Container_OnClick 30 30 ui_world)
          (Container_LeaveClick
             (Container_OnClick 300 300 (Container_OnClick 30 30 ui_world))))
     = 1.
Proof.
  assert (Hp : preserves (@_onClick Lambda))
    by (apply Lambda_preserves; reflexivity).
  split; [exact Hp|].
  destruct (pointer_up_clicks ui_world Hp) as (_ & _ & _ & Hin & Hout).
  destruct (pointer_up_clicks (Container_OnClick 30 30 ui_world) Hp)
    as (_ & _ & _ & _ & Hout').
  split; [|split].
  - eapply (Hin 30%Z 30%Z ui_input); [reflexivity|vm_compute; reflexivity].
  - apply (Hout 300%Z 300%Z).
    intros [|[|i]] c Hi; cbn in Hi; inversion Hi; subst;
      vm_compute; reflexivity.
  - rewrite (Hout' 300%Z 300%Z); [vm_compute; reflexivity|].
    intros i c Hi.
    assert (Ha : _area <$> controls (Container_OnClick 30 30 ui_world)
                 = _area <$> controls ui_world) by (vm_compute; reflexivity).
    assert (Hl : (_area <$> controls ui_world) !! i = Some (_area c))
      by (by rewrite <- Ha, list_lookup_fmap, Hi).
    destruct i as [|[|i]]; cbn in Hl; inversion Hl as [Heq];
      vm_compute; reflexivity.
Defined.

Lemma pointer_move_hover_witness :
  exists c',
    controls (Container_OnHover 30 30 ui_world) !! ui_input = Some c'
    /\ _onHover c' = PointInRectangle (_area c') (Point2U 30 30).
Proof.
  destruct (pointer_move_hover 30 30 ui_world) as (_ & Hflag & _).
  edestruct (Hflag ui_input) as (c' & Hc' & _ & Hh); [reflexivity|].
  exists c'. split; [exact Hc'|exact Hh].
Defined.

Lemma default_callbacks_are_noops_witness :
  Control_LeaveClick ui_output (run [WM_LBUTTONDOWN 30 70] ui_world)
  = MkWorld
      (alter (set_onClick false) ui_output
         (controls (run [WM_LBUTTONDOWN 30 70] ui_world)))
      (trace (run [WM_LBUTTONDOWN 30 70] ui_world)
         ++ [Call ui_output LeaveClick; Fire ui_output ClickEvent]).
Proof.
  destruct (@default_callbacks_are_noops Lambda _) as (_ & _ & Hup & _).
  erewrite Hup; [|vm_compute; reflexivity|reflexivity].
  reflexivity.
Defined.

Lemma dispatch_frames_witness :
  (preserves (@shape Lambda)
   /\ shape <$> controls (Container_OnChar (wchar "s") (run type_cat ui_world))
      = shape <$> controls (run type_cat ui_world))
  /\ (preserves (@text_of Inert)
      /\ text_of <$> controls
           (Container_LeaveClick
              (new_Button (RectF (Float32.lit 0) (Float32.lit 0)
                                 (Float32.lit 9) (Float32.lit 9))
                          (@empty_world Inert)).2)
         = [None]).
Proof.
  split.
  - assert (Hp : preserves (@shape Lambda))
      by (apply Lambda_preserves; reflexivity).
    split; [exact Hp|].
    destruct (dispatch_frames (run type_cat ui_world)) as (Hshape & _).
    apply (Hshape Hp (wchar "s") 0%Z).
  - split; [apply Inert_preserves|].
    match goal with |- context [Container_LeaveClick ?w] =>
      destruct (dispatch_frames w) as (_ & _ & _ & Htext) end.
    rewrite Htext by apply Inert_preserves. reflexivity.
Defined.

End Instances.

(** * Further properties *)

(** ** Conversion of the larger unsigned integers *)

Module Float32Rounding.
Import Float32 Float32Facts.
Local Open Scope Z_scope.

Lemma shr_1_m (r : shr_record) :
  0 <= shr_m r -> shr_m (shr_1 r) = Z.div2 (shr_m r).
Proof.
  destruct r as [m r s]. cbn. intros Hm.
  destruct m as [|[p|p|]|p]; cbn; try reflexivity. lia.
Qed.

Lemma iter_shr_1_m (k : positive) (r : shr_record) :
  0 <= shr_m r ->
  shr_m (SpecFloat.iter_pos shr_1 k r) = shr_m r / 2 ^ Zpos k.
Proof.
  revert r. induction k as [k IH|k IH|]; intros r Hr; cbn [SpecFloat.iter_pos].
  - assert (H1 : 0 <= shr_m (shr_1 r))
      by (rewrite shr_1_m, Z.div2_div by done; apply Z.div_pos; lia).
    assert (H2 : 0 <= shr_m (SpecFloat.iter_pos shr_1 k (shr_1 r)))
      by (rewrite IH by done; apply Z.div_pos; lia).
    rewrite !IH, shr_1_m, Z.div2_div by done.
    rewrite !Z.div_div by lia. f_equal.
    replace (Zpos k~1) with (1 + Zpos k + Zpos k) by lia.
    rewrite !Z.pow_add_r by lia. change (2 ^ 1) with 2. ring.
  - assert (H2 : 0 <= shr_m (SpecFloat.iter_pos shr_1 k r))
      by (rewrite IH by done; apply Z.div_pos; lia).
    rewrite !IH by done. rewrite Z.div_div by lia. f_equal.
    replace (Zpos k~0) with (Zpos k + Zpos k) by lia.
    rewrite Z.pow_add_r; lia.
  - rewrite shr_1_m, Z.div2_div by done. reflexivity.
Qed.

Lemma digits2_of_bounds (p : positive) (k : Z) :
  2 ^ (k - 1) <= Zpos p < 2 ^ k -> Zpos (digits2_pos p) = k.
Proof.
  intros [Hl Hu]. pose proof (digits2_bounds p) as [Hdl Hdu].
  assert (Hk : 0 < k).
  { destruct (Z_lt_le_dec 0 k) as [|Hle]; [done|].
    assert (2 ^ k <= 2 ^ 0) by (destruct (Z_lt_le_dec k 0);
      [rewrite Z.pow_neg_r by lia; cbn; lia|apply Z.pow_le_mono_r; lia]).
    cbn in *. lia. }
  destruct (Z.lt_trichotomy (Zpos (digits2_pos p)) k) as [Hlt|[Heq|Hgt]];
    [|done|].
  - assert (2 ^ Zpos (digits2_pos p) <= 2 ^ (k - 1))
      by (apply Z.pow_le_mono_r; lia).
    lia.
  - assert (2 ^ k <= 2 ^ (Zpos (digits2_pos p) - 1))
      by (apply Z.pow_le_mono_r; lia).
    lia.
Qed.

Lemma round_nearest_even_cases (q : Z) (l : location) :
  round_nearest_even q l = q \/ round_nearest_even q l = q + 1.
Proof.
  destruct l as [|[| |]]; cbn; auto. destruct (Z.even q); auto.
Qed.

(** The second half of [binary_round_aux]: a mantissa of 24 bits is kept,
    and 2^24, which rounding up can produce, becomes 2^23 with the next
    exponent. *)
Lemma round_aux_second (m1 e : Z) :
  2 ^ 23 <= m1 <= 2 ^ 24 -> -149 <= e <= 103 ->
  exists m e',
    (let '(mrs, e'') := shr_fexp prec emax m1 e loc_Exact in
     match shr_m mrs with
     | Z0 => S754_zero false
     | Zpos m => if e'' <=? emax - prec
                 then S754_finite false m e'' else S754_infinity false
     | Zneg _ => S754_nan
     end) = S754_finite false m e'
    /\ bounded prec emax m e' = true /\ e <= e'.
Proof.
  intros Hm He. destruct (Z.eq_dec m1 (2 ^ 24)) as [->|Hne].
  - change (2 ^ 24) with 16777216. exists 8388608%positive, (e + 1).
    unfold shr_fexp. change (Zdigits2 16777216) with 25.
    unfold fexp, emin, prec, emax.
    replace (Z.max (25 + e - 24) (3 - 128 - 24) - e) with 1 by lia.
    cbn.
    replace (e + 1 <=? 128 - 24) with true by (symmetry; apply Z.leb_le; lia).
    split; [done|]. split; [|lia].
    unfold bounded, canonical_mantissa, fexp, emin. cbn.
    apply andb_true_intro. split; [apply Z.eqb_eq|apply Z.leb_le]; lia.
  - destruct m1 as [|p|p]; [cbn in Hm; lia| |lia].
    assert (Hd : Zpos (digits2_pos p) = 24)
      by (apply digits2_of_bounds; change (2 ^ (24 - 1)) with (2 ^ 23); lia).
    exists p, e.
    unfold shr_fexp, fexp, emin, prec, emax. cbn [Zdigits2]. rewrite Hd.
    replace (Z.max (24 + e - 24) (3 - 128 - 24) - e) with 0 by lia.
    cbn. replace (e <=? 128 - 24) with true by (symmetry; apply Z.leb_le; lia).
    split; [done|]. split; [|lia].
    unfold bounded, canonical_mantissa, fexp, emin. rewrite Hd.
    apply andb_true_intro. split; [apply Z.eqb_eq|apply Z.leb_le]; lia.
Qed.

(** From 2^24 on, the conversion drops the low bits and rounds: the result
    is a finite [float] whose exponent is at least the number of bits
    dropped. *)
Lemma of_uint_large (n : Z) :
  2 ^ 24 <= n < 2 ^ 32 ->
  exists m e,
    of_uint n = S754_finite false m e
    /\ bounded prec emax m e = true
    /\ Zdigits2 n - 24 <= e.
Proof.
  intros Hn. destruct n as [|p|p]; [cbn in Hn; lia| |lia].
  pose proof (digits2_bounds p) as [Hl Hu]. cbn [Zdigits2].
  set (d := Zpos (digits2_pos p)) in *.
  assert (Hd : 25 <= d <= 32).
  { split.
    - destruct (Z_lt_le_dec d 25) as [Hlt|]; [|done].
      assert (2 ^ d <= 2 ^ 24) by (apply Z.pow_le_mono_r; lia). lia.
    - destruct (Z_lt_le_dec 32 d) as [Hlt|]; [|done].
      assert (2 ^ 32 <= 2 ^ (d - 1)) by (apply Z.pow_le_mono_r; lia). lia. }
  unfold of_uint, binary_normalize, binary_round, shl_align.
  rewrite Z.add_0_r. fold d.
  assert (Hfexp : fexp prec emax d = d - 24)
    by (unfold fexp, emin, prec, emax; lia).
  rewrite Hfexp.
  destruct (d - 24 - 0) as [|sp|sp] eqn:Hs; [lia| |lia].
  unfold binary_round_aux.
  assert (Hshr : shr_fexp prec emax (Zpos p) 0 loc_Exact
                 = (SpecFloat.iter_pos shr_1 sp
                      {| shr_m := Zpos p; shr_r := false; shr_s := false |},
                    Zpos sp)).
  { unfold shr_fexp. cbn [Zdigits2]. fold d. rewrite Z.add_0_r, Hfexp.
    replace (d - 24 - 0) with (Zpos sp) by lia. reflexivity. }
  rewrite Hshr.
  set (r1 := SpecFloat.iter_pos shr_1 sp _).
  assert (Hq : shr_m r1 = Zpos p / 2 ^ Zpos sp)
    by (subst r1; rewrite iter_shr_1_m; [done|cbn; lia]).
  assert (Hpow : 0 < 2 ^ Zpos sp) by (apply Z.pow_pos_nonneg; lia).
  assert (Hsplit : 2 ^ d = 2 ^ 24 * 2 ^ Zpos sp)
    by (rewrite <- Z.pow_add_r by lia; f_equal; lia).
  assert (Hsplit' : 2 ^ (d - 1) = 2 ^ 23 * 2 ^ Zpos sp)
    by (rewrite <- Z.pow_add_r by lia; f_equal; lia).
  assert (Hqb : 2 ^ 23 <= shr_m r1 < 2 ^ 24).
  { rewrite Hq. split.
    - apply Z.div_le_lower_bound; lia.
    - apply Z.div_lt_upper_bound; lia. }
  destruct (round_aux_second
              (round_nearest_even (shr_m r1) (loc_of_shr_record r1)) (Zpos sp))
    as (m & e' & Heq & Hb & He).
  { destruct (round_nearest_even_cases (shr_m r1) (loc_of_shr_record r1))
      as [->| ->]; lia. }
  { lia. }
  exists m, e'. split; [exact Heq|]. split; [exact Hb|]. lia.
Qed.

(** Every [UINT32] converts to a finite [float]. *)
Lemma of_uint_finite (n : Z) :
  0 <= n < 2 ^ 32 -> finite (of_uint n) = true.
Proof.
  intros Hn. destruct (Z_lt_le_dec n (2 ^ 24)) as [Hlt|Hge].
  - apply of_uint_exact. lia.
  - destruct (of_uint_large n) as (m & e & -> & Hb & _); [lia|exact Hb].
Qed.

Lemma to_Q_lower (m : positive) (e k : Z) :
  bounded prec emax m e = true -> 23 <= k -> k - 23 <= e ->
  (inject_Z (2 ^ k) <= to_Q (S754_finite false m e))%Q.
Proof.
  intros Hb Hk He. apply bounded_inv in Hb as (_ & Hm & _).
  specialize (Hm ltac:(lia)).
  rewrite (to_Q_scaled false m e (k - 23)) by lia. cbn [cond_Zopp].
  replace (2 ^ k) with (2 ^ 23 * 2 ^ (k - 23))
    by (rewrite <- Z.pow_add_r by lia; f_equal; lia).
  rewrite (inject_Z_mult (2 ^ 23)), (Zpower_Qpower 2 (k - 23)) by lia.
  change (inject_Z 2) with (2 # 1)%Q.
  apply Qmult_le_r; [apply pow2_pos_Q|].
  rewrite <- Zle_Qle.
  assert (1 <= 2 ^ (e - (k - 23))) by (apply (Z.pow_le_mono_r 2 0); lia).
  nia.
Qed.

(** A [UINT32] of at least 2^31 converts to a [float] of at least 2^31. *)
Lemma of_uint_high (n : Z) :
  2 ^ 31 <= n < 2 ^ 32 ->
  finite (of_uint n) = true /\ (inject_Z (2 ^ 31) <= to_Q (of_uint n))%Q.
Proof.
  intros Hn. destruct (of_uint_large n) as (m & e & Heq & Hb & He); [lia|].
  rewrite Heq. split; [done|].
  apply to_Q_lower; [done|lia|].
  destruct n as [|p|p]; [cbn in Hn; lia| |lia]. cbn [Zdigits2] in He.
  assert (Hd : Zpos (digits2_pos p) = 32)
    by (apply digits2_of_bounds; change (2 ^ (32 - 1)) with (2 ^ 31); lia).
  lia.
Qed.

End Float32Rounding.

(** ** The hit test on every [UINT32] point *)

Section HitTestMore.

Import Float32 Float32Facts Float32Rounding.

Lemma hit_inv (r : D2D1_RECT_F) (p : D2D1_POINT_2U) :
  PointInRectangle r p = true ->
  ltb (top r) (of_uint (y p)) = true
  /\ ltb (of_uint (y p)) (bottom r) = true
  /\ ltb (left r) (of_uint (x p)) = true
  /\ ltb (of_uint (x p)) (right r) = true.
Proof.
  unfold PointInRectangle. rewrite !andb_true_iff. tauto.
Qed.


(** A point inside a rectangle is inside every rectangle that contains
    it: of two controls with nested bounds, the outer one is hit whenever
    the inner one is. *)
Theorem nested_bounds_hit_together (inner outer : D2D1_RECT_F)
        (p : D2D1_POINT_2U) :
  finite_rect inner -> finite_rect outer -> uint32_point p ->
  within inner outer ->
  PointInRectangle inner p = true -> PointInRectangle outer p = true.
Proof.
  intros (Hl & Ht & Hr & Hb) (Hl' & Ht' & Hr' & Hb') [Hx Hy]
         (Wl & Wr & Wt & Wb) Hin.
  apply hit_inv in Hin as (H1 & H2 & H3 & H4).
  pose proof (of_uint_finite _ Hx) as Hfx.
  pose proof (of_uint_finite _ Hy) as Hfy.
  apply ltb_to_Q in H1, H2, H3, H4; try done.
  unfold PointInRectangle. rewrite !andb_true_iff. repeat split.
  - apply ltb_to_Q; [done|done|]. by eapply Qle_lt_trans.
  - apply ltb_to_Q; [done|done|]. by eapply Qlt_le_trans.
  - apply ltb_to_Q; [done|done|]. by eapply Qle_lt_trans.
  - apply ltb_to_Q; [done|done|]. by eapply Qlt_le_trans.
Qed.

Lemma to_unsigned_negative (v : Z) :
  (- 2 ^ 31 <= v < 0)%Z -> (2 ^ 31 <= to_unsigned v < 2 ^ 32)%Z.
Proof.
  intros Hv. unfold to_unsigned.
  replace v with (v + 2 ^ 32 + (-1) * 2 ^ 32)%Z by lia.
  rewrite Z.mod_add by lia. rewrite Z.mod_small; lia.
Qed.

Lemma not_ltb_high (f : float) (n : Z) :
  finite f = true -> (to_Q f <= inject_Z (2 ^ 31))%Q ->
  (2 ^ 31 <= n < 2 ^ 32)%Z ->
  ltb (of_uint n) f = false.
Proof.
  intros Hf Hle Hn. destruct (of_uint_high n Hn) as [Hfin Hge].
  apply not_true_is_false. intros Hlt.
  apply ltb_to_Q in Hlt; [|done|done].
  apply (Qlt_irrefl (to_Q f)).
  eapply Qle_lt_trans; [exact Hle|]. by eapply Qle_lt_trans.
Qed.

End HitTestMore.

(** ** Pointer-down, pointer-move and pointer-up *)

Section PointerMore.

Context {U : Type} `{!Closures U}.

Lemma world_eta (w : World U) : w = MkWorld (controls w) (trace w).
Proof. by destruct w. Qed.

(** A pointer-down at [p] sets the focused flag of every control to the
    hit test of [p], sets the pressed flag of the controls hit and leaves it
    on the others, and touches nothing else; no callback is invoked. *)
Theorem pointer_down_sets_focus_and_press (x y : Z) (w : World U) :
  length (controls (Container_OnClick x y w)) = length (controls w)
  /\ (forall i c, controls w !! i = Some c ->
        exists c',
          controls (Container_OnClick x y w) !! i = Some c'
          /\ _onFocus c' = PointInRectangle (_area c) (Point2U x y)
          /\ _onClick c'
             = PointInRectangle (_area c) (Point2U x y) || _onClick c
          /\ _onHover c' = _onHover c
          /\ _area c' = _area c
          /\ _clickEvent c' = _clickEvent c
          /\ _changeEvent c' = _changeEvent c
          /\ derived c' = derived c)
  /\ (forall k i, fired k i (new_events w (Container_OnClick x y w)) = 0).
Proof.
  destruct (Container_OnClick_spec x y w) as [Hc Ht].
  split; [by rewrite Hc, length_fmap|]. split.
  - intros i c Hi. rewrite Hc, list_lookup_fmap, Hi. cbn.
    eexists. split; [done|]. unfold after_click.
    by destruct (PointInRectangle (_area c) (Point2U x y)).
  - intros k i. rewrite (new_events_app _ _ _ Ht).
    apply fired_click_calls_0.
Qed.

Lemma first_focused_after_click (x y : Z) (w : World U) i :
  first_hit (controls w) (Point2U x y) i ->
  first_focused (controls (Container_OnClick x y w)) i.
Proof.
  intros [(c & Hc & Hin) Hlt].
  destruct (Container_OnClick_spec x y w) as [Heq _]. rewrite Heq. split.
  - exists (after_click (Point2U x y) c). rewrite list_lookup_fmap, Hc.
    split; [done|]. unfold after_click. by rewrite Hin.
  - intros j c' Hj Hc'. rewrite list_lookup_fmap in Hc'.
    destruct (controls w !! j) as [cj|] eqn:Hcj; [|done].
    inversion Hc'; subst c'. unfold after_click.
    by rewrite (Hlt j cj Hj Hcj).
Qed.

Lemma none_focused_after_click (x y : Z) (w : World U) :
  none_hit (controls w) (Point2U x y) ->
  none_focused (controls (Container_OnClick x y w)).
Proof.
  intros Hnone j c' Hc'.
  destruct (Container_OnClick_spec x y w) as [Heq _].
  rewrite Heq, list_lookup_fmap in Hc'.
  destruct (controls w !! j) as [cj|] eqn:Hcj; [|done].
  inversion Hc'; subst c'. unfold after_click.
  by rewrite (Hnone j cj Hcj).
Qed.

(** After a pointer-down at [p], a character or a key goes to the first
    control in insertion order whose bounds contain [p]; after a pointer-down
    outside every control, characters and keys change nothing. *)
Theorem keyboard_follows_pointer_down (x y ch key : Z) (w : World U) :
  (forall i, first_hit (controls w) (Point2U x y) i ->
     Container_OnChar ch (Container_OnClick x y w)
     = call_OnChar i (to_wchar_t ch) (Container_OnClick x y w)
     /\ Container_OnKeyDown key (Container_OnClick x y w)
        = call_OnKeyDown i (to_unsigned key) (Container_OnClick x y w))
  /\ (none_hit (controls w) (Point2U x y) ->
      Container_OnChar ch (Container_OnClick x y w) = Container_OnClick x y w
      /\ Container_OnKeyDown key (Container_OnClick x y w)
         = Container_OnClick x y w).
Proof.
  split.
  - intros i Hi. apply first_focused_after_click in Hi.
    unfold Container_OnChar, Container_OnKeyDown.
    rewrite (focused_loop_first
               (fun control => call_OnChar control (to_wchar_t ch)) _ i Hi).
    by rewrite (focused_loop_first
               (fun control => call_OnKeyDown control (to_unsigned key)) _ i Hi).
  - intros Hn. apply none_focused_after_click in Hn.
    unfold Container_OnChar, Container_OnKeyDown.
    rewrite (focused_loop_none
               (fun control => call_OnChar control (to_wchar_t ch)) _ Hn).
    by rewrite (focused_loop_none
               (fun control => call_OnKeyDown control (to_unsigned key)) _ Hn).
Qed.

Lemma concat_hover_calls_settled p (cs : list (Control U)) (off : nat) :
  (forall c, c ∈ cs -> _onHover c = PointInRectangle (_area c) p) ->
  concat (imap (fun j => hover_calls p (off + j)) cs) = [].
Proof.
  revert off. induction cs as [|c cs IH]; intros off Hall; [done|].
  cbn [imap concat].
  change (imap ((fun j => hover_calls p (off + j)) ∘ S) cs)
    with (imap (fun j => hover_calls p (off + S j)) cs).
  rewrite (imap_shift (hover_calls p)), IH
    by (intros c' Hc'; apply Hall; by apply list_elem_of_further).
  unfold hover_calls. rewrite (Hall c) by apply list_elem_of_here.
  by destruct (PointInRectangle (_area c) p).
Qed.

Lemma concat_hover_calls_settled_0 p (cs : list (Control U)) :
  (forall c, c ∈ cs -> _onHover c = PointInRectangle (_area c) p) ->
  concat (imap (hover_calls p) cs) = [].
Proof. exact (concat_hover_calls_settled p cs 0). Qed.

(** A second pointer-move at the same point calls nothing and changes
    nothing. *)
Theorem pointer_move_idempotent (x y : Z) (w : World U) :
  Container_OnHover x y (Container_OnHover x y w) = Container_OnHover x y w.
Proof.
  set (w1 := Container_OnHover x y w).
  destruct (Container_OnHover_spec x y w) as [Hc1 _]. fold w1 in Hc1.
  destruct (Container_OnHover_spec x y w1) as [Hc2 Ht2].
  apply eq_trans with (MkWorld (controls w1) (trace w1));
    [|symmetry; apply world_eta].
  rewrite (world_eta (Container_OnHover x y w1)), Hc2, Ht2. f_equal.
  - rewrite Hc1, <- list_fmap_compose. apply list_fmap_ext.
    intros i c _. by destruct c.
  - rewrite concat_hover_calls_settled_0; [by rewrite app_nil_r|].
    intros c Hc. rewrite Hc1 in Hc.
    apply list_elem_of_fmap in Hc as (c0 & -> & _). done.
Qed.

Lemma Container_LeaveClick_none_pressed (w : World U) :
  (forall i c, controls w !! i = Some c -> _onClick c = false) ->
  Container_LeaveClick w = w.
Proof.
  intros Hnone. unfold Container_LeaveClick.
  apply (for_each_preserves (fun w' => w' = w)); [|done].
  intros i w' ->. destruct (controls w !! i) as [c|] eqn:Hc; [|done].
  unfold Control_IsClicked. by rewrite (Hnone i c Hc).
Qed.

(** A second pointer-up calls nothing and changes nothing, when the
    closures leave the pressed flags alone. *)
Theorem pointer_up_idempotent (w : World U) :
  preserves (@_onClick U) ->
  Container_LeaveClick (Container_LeaveClick w) = Container_LeaveClick w.
Proof.
  intros Hp. apply Container_LeaveClick_none_pressed.
  intros i c Hi. destruct (Container_LeaveClick_spec w Hp) as [Hc _].
  assert (Hl : (_onClick <$> controls (Container_LeaveClick w)) !! i
               = Some (_onClick c)) by (by rewrite list_lookup_fmap, Hi).
  rewrite Hc, list_lookup_fmap in Hl.
  destruct (controls w !! i); by inversion Hl.
Qed.

End PointerMore.

(** ** Repaint *)

Section RepaintMore.

Context {U : Type} `{!Closures U}.



Lemma DrawRectangle_spec (w : World U) :
  controls (DrawRectangle w) = controls w
  /\ trace (DrawRectangle w)
     = trace w ++ RT_BeginDraw :: RT_Clear
                  :: concat (imap paint_events (controls w)) ++ [RT_EndDraw].
Proof.
  unfold DrawRectangle.
  destruct (Container_Paint_spec (emit RT_Clear (emit RT_BeginDraw w)))
    as [Hc Ht].
  split.
  - change (controls (emit RT_EndDraw ?a)) with (controls a). by rewrite Hc.
  - change (trace (emit RT_EndDraw ?a)) with (trace a ++ [RT_EndDraw]).
    rewrite Ht. cbn. by rewrite <- !app_assoc.
Qed.



End RepaintMore.

(** ** What no message changes *)

Section StaticParts.

Context {U : Type} `{!Closures U}.

Lemma WndProc_frame {A} (proj : Control U -> A) (message : Message)
      (w : World U) :
  preserves proj ->
  (forall b c, proj (set_onHover b c) = proj c) ->
  (forall b c, proj (set_onClick b c) = proj c) ->
  (forall b c, proj (set_onFocus b c) = proj c) ->
  (forall a c, proj (push_back a c) = proj c) ->
  (forall c, proj (pop_back c) = proj c) ->
  proj <$> controls (WndProc message w) = proj <$> controls w.
Proof.
  intros Hp Hh Hk Hf Hpush Hpop.
  destruct message as [|x y|x y| |ch|key]; cbn [WndProc].
  - by destruct (DrawRectangle_spec w) as [-> _].
  - destruct (Container_OnHover_spec (to_unsigned x) (to_unsigned y) w)
      as [-> _].
    by apply fmap_fmap_frame.
  - destruct (Container_OnClick_spec (to_unsigned x) (to_unsigned y) w)
      as [-> _].
    apply fmap_fmap_frame. intros c. unfold after_click.
    destruct (PointInRectangle _ _); by rewrite Hf, ?Hk.
  - by apply Container_LeaveClick_frame.
  - by apply Container_OnChar_frame.
  - by apply Container_OnKeyDown_frame.
Qed.

Lemma run_frame {A} (proj : Control U -> A) (messages : list Message)
      (w : World U) :
  preserves proj ->
  (forall b c, proj (set_onHover b c) = proj c) ->
  (forall b c, proj (set_onClick b c) = proj c) ->
  (forall b c, proj (set_onFocus b c) = proj c) ->
  (forall a c, proj (push_back a c) = proj c) ->
  (forall c, proj (pop_back c) = proj c) ->
  proj <$> controls (run messages w) = proj <$> controls w.
Proof.
  intros Hp Hh Hk Hf Hpush Hpop. revert w.
  induction messages as [|m messages IH]; intros w; [done|].
  cbn. change (foldl _ ?a messages) with (run messages a).
  rewrite IH. by apply WndProc_frame.
Qed.

(** When the closures leave bounds, class and callbacks alone, no sequence
    of messages changes the bounds, the class or the registered callbacks of
    any control, and none adds or removes a control. *)
Theorem messages_keep_static_parts (messages : list Message) (w : World U) :
  preserves (@static_part U) ->
  static_part <$> controls (run messages w) = static_part <$> controls w
  /\ length (controls (run messages w)) = length (controls w).
Proof.
  intros Hp.
  assert (Heq : static_part <$> controls (run messages w)
                = static_part <$> controls w).
  { apply run_frame; try done.
    - intros a c. unfold push_back, static_part.
      destruct (derived c) eqn:Hd; cbn; by rewrite ?Hd.
    - intros c. unfold pop_back, static_part.
      destruct (derived c) eqn:Hd; cbn; by rewrite ?Hd. }
  split; [done|].
  by rewrite <- (length_fmap static_part), Heq, length_fmap.
Qed.

End StaticParts.

(** ** Keys and characters without effect; registration *)

Section KeysMore.

Context {U : Type} `{!Closures U}.

Lemma call_OnKeyDown_other_key this key (w : World U) :
  key <> VK_BACK ->
  call_OnKeyDown this key w = emit (Call this (OnKeyDown key)) w.
Proof.
  intros Hkey. unfold call_OnKeyDown.
  destruct (class_of this w); try done.
  unfold TextBox_OnKeyDown. cbn.
  destruct (controls w !! this) as [c|]; [|done].
  apply Z.eqb_neq in Hkey. by rewrite Hkey.
Qed.

Lemma call_OnChar_backspace this (w : World U) :
  call_OnChar this BS w = emit (Call this (OnChar BS)) w.
Proof. unfold call_OnChar. by destruct (class_of this w). Qed.

(** A key other than [VK_BACK] (after conversion to [unsigned]) and a
    character that is a backspace (after conversion to [wchar_t]) change no
    control and invoke no callback, whichever control is focused. *)
Theorem other_keys_and_backspace_char_ignored (ch key : Z) (w : World U) :
  (to_unsigned key <> VK_BACK ->
   controls (Container_OnKeyDown key w) = controls w
   /\ forall k i, fired k i (new_events w (Container_OnKeyDown key w)) = 0)
  /\ (to_wchar_t ch = BS ->
      controls (Container_OnChar ch w) = controls w
      /\ forall k i, fired k i (new_events w (Container_OnChar ch w)) = 0).
Proof.
  assert (Hsame : forall k i, fired k i (new_events w w) = 0).
  { intros k i. by rewrite (new_events_app w w []) by (by rewrite app_nil_r). }
  split.
  - intros Hkey. unfold Container_OnKeyDown.
    destruct (focused_cases (controls w)) as [Hn|[i Hi]].
    + by rewrite (focused_loop_none
                    (fun control => call_OnKeyDown control (to_unsigned key))
                    w Hn).
    + rewrite (focused_loop_first
                 (fun control => call_OnKeyDown control (to_unsigned key))
                 w i Hi).
      rewrite (call_OnKeyDown_other_key _ _ _ Hkey). split; [done|].
      intros k j. erewrite new_events_app by reflexivity. by destruct k.
  - intros Hch. unfold Container_OnChar.
    destruct (focused_cases (controls w)) as [Hn|[i Hi]].
    + by rewrite (focused_loop_none
                    (fun control => call_OnChar control (to_wchar_t ch)) w Hn).
    + rewrite (focused_loop_first
                 (fun control => call_OnChar control (to_wchar_t ch)) w i Hi).
      rewrite Hch, call_OnChar_backspace. split; [done|].
      intros k j. erewrite new_events_app by reflexivity. by destruct k.
Qed.


End KeysMore.

(** ** The program, message by message *)

Section ProgramMore.

Local Ltac wired_now :=
  unfold wired; do 4 eexists; reflexivity.

Lemma WndProc_wired (message : Message) (w : World Lambda) s :
  wired s (controls w) -> wired (ui_step s message) (controls (WndProc message w)).
Proof.
  destruct w as [cs tr]. destruct s as [[f1 f2] t]. cbn [controls].
  intros (h1 & k1 & h2 & k2 & ->). cbn [fst snd] in *.
  destruct message as [|x y|x y| |ch|key]; cbn [WndProc ui_step fst snd].
  - destruct (DrawRectangle_spec
                (MkWorld
                   [MkControl ui_area_input h1 k1 f1 NoOp
                      (Closure (ReverseInto 0 1)) (IsTextBox t);
                    MkControl ui_area_output h2 k2 f2 NoOp NoOp
                      (IsLabel (rev t))] tr)) as [-> _].
    cbn. wired_now.
  - match goal with |- context [Container_OnHover ?a ?b ?c] =>
      destruct (Container_OnHover_spec a b c) as [-> _] end.
    cbn. wired_now.
  - match goal with |- context [Container_OnClick ?a ?b ?c] =>
      destruct (Container_OnClick_spec a b c) as [-> _] end.
    cbn -[PointInRectangle ui_area_input ui_area_output]. unfold after_click.
    cbn -[PointInRectangle ui_area_input ui_area_output].
    do 2 destruct (PointInRectangle _ _); cbn; wired_now.
  - destruct k1, k2; cbn; wired_now.
  - unfold Container_OnChar, for_each_break.
    destruct f1, f2; cbn -[to_wchar_t Z.eqb rev]; try wired_now.
    all: unfold call_OnChar, TextBox_OnChar; cbn -[to_wchar_t Z.eqb rev];
      destruct (to_wchar_t ch =? BS)%Z; cbn -[to_wchar_t rev]; wired_now.
  - unfold Container_OnKeyDown, for_each_break.
    destruct f1, f2; cbn -[to_unsigned Z.eqb rev]; try wired_now.
    all: unfold call_OnKeyDown, TextBox_OnKeyDown;
      cbn -[to_unsigned Z.eqb rev];
      destruct (to_unsigned key =? VK_BACK)%Z; destruct t as [|a t];
      cbn -[to_unsigned removelast rev]; wired_now.
Qed.

Lemma run_wired (messages : list Message) (w : World Lambda) s :
  wired s (controls w) ->
  wired (foldl ui_step s messages) (controls (run messages w)).
Proof.
  revert w s. induction messages as [|m messages IH]; intros w s Hs; [done|].
  cbn. apply IH. by apply WndProc_wired.
Qed.

Lemma ui_world_wired : wired (false, false, []) (controls ui_world).
Proof. exists false, false, false, false. reflexivity. Qed.

Lemma wired_shown s (w : World Lambda) :
  wired s (controls w) ->
  shown ui_input w = Some s.2 /\ shown ui_output w = Some (rev s.2).
Proof.
  intros (h1 & k1 & h2 & k2 & Hcs). unfold shown. by rewrite Hcs.
Qed.

Lemma wired_text s (w : World Lambda) :
  wired s (controls w) -> TextBox_Text ui_input (controls w) = s.2.
Proof. intros (h1 & k1 & h2 & k2 & Hcs). by rewrite Hcs. Qed.

Lemma reachable_wired (messages : list Message) :
  exists s, wired s (controls (run messages ui_world)).
Proof. eexists. apply run_wired, ui_world_wired. Qed.

Lemma run_app (before after : list Message) (w : World Lambda) :
  run (before ++ after) w = run after (run before w).
Proof. apply foldl_app. Qed.

Lemma ui_step_chars s (chs : list Z) :
  s.1.1 = true ->
  Forall (fun ch => to_wchar_t ch <> BS) chs ->
  foldl ui_step s (WM_CHAR <$> chs) = (s.1, s.2 ++ (to_wchar_t <$> chs)).
Proof.
  intros Hf Hall. revert s Hf.
  induction Hall as [|ch chs Hch _ IH]; intros [[f1 f2] t] Hf; cbn in *.
  - by rewrite app_nil_r.
  - subst f1. apply Z.eqb_neq in Hch. rewrite Hch. cbn.
    rewrite IH by done. cbn. by rewrite <- app_assoc.
Qed.

Lemma removelast_take {A} (l : list A) : removelast l = take (length l - 1) l.
Proof.
  induction l as [|a [|b l] IH]; [done|done|].
  change (removelast (a :: b :: l)) with (a :: removelast (b :: l)).
  rewrite IH. cbn. by rewrite Nat.sub_0_r.
Qed.

Lemma ui_step_backspaces s (n : nat) :
  s.1.1 = true ->
  foldl ui_step s (concat (replicate n backspace_key))
  = (s.1, take (length s.2 - n) s.2).
Proof.
  revert s. induction n as [|n IH]; intros [[f1 f2] t] Hf; cbn in *.
  - by rewrite Nat.sub_0_r, firstn_all.
  - subst f1. cbn [replicate concat backspace_key app foldl ui_step fst snd].
    change (to_unsigned VK_BACK =? VK_BACK)%Z with true.
    change (to_wchar_t BS =? BS)%Z with true.
    cbn [andb negb fst snd]. rewrite IH by done. cbn [fst snd]. f_equal.
    rewrite removelast_take, length_take, take_take. f_equal. lia.
Qed.

Lemma ui_step_no_pointer_down s (messages : list Message) :
  s.1.1 = false ->
  forallb (fun m => negb (is_pointer_down m)) messages = true ->
  foldl ui_step s messages = s.
Proof.
  intros Hf. induction messages as [|m messages IH]; [done|].
  cbn. intros [Hm Hrest]%andb_prop. destruct s as [[f1 f2] t]. cbn in Hf.
  subst f1. destruct m; cbn in *; try done; by apply IH.
Qed.

(** Typing: in any state the program has reached, a pointer-down inside
    the text box followed by characters none of which is a backspace appends
    those characters, as 16-bit code units, to the text of the text box, and
    the label shows the reverse of the result. *)
Theorem typing_appends (before : list Message) (x y : Z) (chs : list Z) :
  PointInRectangle ui_area_input (Point2U (to_unsigned x) (to_unsigned y))
  = true ->
  Forall (fun ch => to_wchar_t ch <> BS) chs ->
  shown ui_input
    (run (before ++ WM_LBUTTONDOWN x y :: (WM_CHAR <$> chs)) ui_world)
  = Some (TextBox_Text ui_input (controls (run before ui_world))
          ++ (to_wchar_t <$> chs))
  /\ shown ui_output
       (run (before ++ WM_LBUTTONDOWN x y :: (WM_CHAR <$> chs)) ui_world)
     = Some (rev (TextBox_Text ui_input (controls (run before ui_world))
                  ++ (to_wchar_t <$> chs))).
Proof.
  intros Hin Hall.
  destruct (reachable_wired before) as [s Hs].
  rewrite (wired_text _ _ Hs), run_app.
  apply (run_wired (WM_LBUTTONDOWN x y :: (WM_CHAR <$> chs))) in Hs.
  cbn [foldl ui_step] in Hs. rewrite Hin in Hs.
  rewrite ui_step_chars in Hs by done.
  by apply wired_shown in Hs.
Qed.

(** Backspace: after a pointer-down inside the text box, [n] presses of
    the Backspace key remove the last [n] characters of the text (all of
    them if there are fewer); in particular, typing characters and pressing
    Backspace once for each restores the text. *)
Theorem backspace_removes_last (before : list Message) (x y : Z) (n : nat) :
  PointInRectangle ui_area_input (Point2U (to_unsigned x) (to_unsigned y))
  = true ->
  shown ui_input
    (run (before ++ WM_LBUTTONDOWN x y :: concat (replicate n backspace_key))
         ui_world)
  = Some (take (length (TextBox_Text ui_input (controls (run before ui_world)))
                - n)
               (TextBox_Text ui_input (controls (run before ui_world))))
  /\ (forall chs,
        Forall (fun ch => to_wchar_t ch <> BS) chs ->
        shown ui_input
          (run (before ++ WM_LBUTTONDOWN x y :: (WM_CHAR <$> chs)
                         ++ concat (replicate (length chs) backspace_key))
               ui_world)
        = Some (TextBox_Text ui_input (controls (run before ui_world)))).
Proof.
  intros Hin.
  destruct (reachable_wired before) as [s Hs].
  rewrite (wired_text _ _ Hs). split.
  - rewrite run_app.
    apply (run_wired (WM_LBUTTONDOWN x y :: concat (replicate n backspace_key)))
      in Hs.
    cbn [foldl ui_step] in Hs. rewrite Hin in Hs.
    rewrite ui_step_backspaces in Hs by done.
    by apply wired_shown in Hs as [-> _].
  - intros chs Hall. rewrite run_app, app_comm_cons, run_app.
    apply (run_wired (WM_LBUTTONDOWN x y :: (WM_CHAR <$> chs))) in Hs.
    cbn [foldl ui_step] in Hs. rewrite Hin in Hs.
    rewrite ui_step_chars in Hs by done.
    apply (run_wired (concat (replicate (length chs) backspace_key))) in Hs.
    rewrite ui_step_backspaces in Hs by done. cbn [fst snd] in Hs.
    apply wired_shown in Hs as [-> _]. f_equal.
    rewrite length_app, length_fmap.
    replace (length s.2 + length chs - length chs) with (length s.2) by lia.
    by rewrite take_app_length.
Qed.

(** Without focus no input: before the first pointer-down, and after a
    pointer-down outside the text box until the next pointer-down, no
    message changes the text of the text box. *)
Theorem unfocused_text_box_ignores_input (messages : list Message) :
  forallb (fun m => negb (is_pointer_down m)) messages = true ->
  shown ui_input (run messages ui_world) = Some []
  /\ (forall before x y,
        PointInRectangle ui_area_input
          (Point2U (to_unsigned x) (to_unsigned y)) = false ->
        shown ui_input
          (run (before ++ WM_LBUTTONDOWN x y :: messages) ui_world)
        = shown ui_input (run before ui_world)).
Proof.
  intros Hno. split.
  - pose proof (run_wired messages ui_world _ ui_world_wired) as Hs.
    rewrite ui_step_no_pointer_down in Hs by done.
    by apply wired_shown in Hs as [-> _].
  - intros before x y Hout.
    destruct (reachable_wired before) as [s Hs].
    destruct (wired_shown _ _ Hs) as [-> _]. rewrite run_app.
    apply (run_wired (WM_LBUTTONDOWN x y :: messages)) in Hs.
    cbn [foldl ui_step] in Hs. rewrite Hout in Hs.
    rewrite ui_step_no_pointer_down in Hs by done.
    by apply wired_shown in Hs as [-> _].
Qed.

(** In the program itself the two controls do not overlap, so that every
    state it reaches has at most one focused control. *)
Theorem program_has_single_focus (messages : list Message) :
  at_most_one_focused (controls (run messages ui_world)).
Proof.
  assert (Hp : preserves (@bounds_and_focus Lambda))
    by (apply Lambda_preserves; reflexivity).
  destruct (run_focus_invariant messages ui_world Hp) as [Harea [p Hfocus]].
  { exists (Point2U 0 0). intros i c Hi Hf.
    destruct (ui_world_initial i c Hi) as (_ & _ & Hnf). congruence. }
  intros i j ci cj Hi Hj Hfi Hfj.
  assert (Hsame : forall k c, controls (run messages ui_world) !! k = Some c ->
                    exists c0, controls ui_world !! k = Some c0
                               /\ _area c0 = _area c).
  { intros k c Hk.
    assert (Hl : (_area <$> controls ui_world) !! k = Some (_area c))
      by (by rewrite <- Harea, list_lookup_fmap, Hk).
    rewrite list_lookup_fmap in Hl.
    destruct (controls ui_world !! k) as [c0|]; [|done].
    exists c0. split; [done|]. by inversion Hl. }
  destruct (Hsame i ci Hi) as (c0i & H0i & Hai).
  destruct (Hsame j cj Hj) as (c0j & H0j & Haj).
  apply (ui_world_non_overlapping i j c0i c0j p H0i H0j).
  - rewrite Hai. by eapply Hfocus.
  - rewrite Haj. by eapply Hfocus.
Qed.

End ProgramMore.

(** ** Coordinates outside the window; what only a pointer-down does *)

Section EdgesMore.

Context {U : Type} `{!Closures U}.

Lemma negative_point_outside (r : D2D1_RECT_F) (vx vy : Z) :
  below_2_31 r ->
  (- 2 ^ 31 <= vx < 2 ^ 31)%Z -> (- 2 ^ 31 <= vy < 2 ^ 31)%Z ->
  (vx < 0)%Z \/ (vy < 0)%Z ->
  PointInRectangle r (Point2U (to_unsigned vx) (to_unsigned vy)) = false.
Proof.
  intros (Hr & Hb & Hrle & Hble) Hx Hy Hneg. unfold PointInRectangle.
  cbn [x y].
  destruct Hneg as [Hn|Hn].
  - rewrite (not_ltb_high (right r) (to_unsigned vx));
      [by rewrite andb_false_r|done|done|].
    apply to_unsigned_negative. lia.
  - rewrite (not_ltb_high (bottom r) (to_unsigned vy));
      [by rewrite !andb_false_r|done|done|].
    apply to_unsigned_negative. lia.
Qed.

(** A pointer position with a negative coordinate reaches the container
    as an [unsigned] of at least 2^31 and is outside every rectangle whose
    right and bottom edges are at most 2^31: a pointer-move there leaves no
    such control hovered and a pointer-down there leaves none focused. *)
Theorem negative_coordinates_hit_nothing (x y : Z) (w : World U) :
  (- 2 ^ 31 <= x < 2 ^ 31)%Z -> (- 2 ^ 31 <= y < 2 ^ 31)%Z ->
  (x < 0)%Z \/ (y < 0)%Z ->
  (forall r, below_2_31 r ->
     PointInRectangle r (Point2U (to_unsigned x) (to_unsigned y)) = false)
  /\ ((forall i c, controls w !! i = Some c -> below_2_31 (_area c)) ->
      (forall i c', controls (WndProc (WM_MOUSEMOVE x y) w) !! i = Some c' ->
         _onHover c' = false)
      /\ (forall i c', controls (WndProc (WM_LBUTTONDOWN x y) w) !! i = Some c' ->
            _onFocus c' = false)).
Proof.
  intros Hx Hy Hneg. split.
  - intros r Hr. by apply negative_point_outside.
  - intros Hall. cbn [WndProc]. split.
    + intros i c'.
      destruct (Container_OnHover_spec (to_unsigned x) (to_unsigned y) w)
        as [-> _].
      rewrite list_lookup_fmap.
      destruct (controls w !! i) as [c|] eqn:Hc; [|done].
      intros [= <-]. cbn.
      apply negative_point_outside; [by eapply Hall|done|done|done].
    + intros i c'.
      destruct (Container_OnClick_spec (to_unsigned x) (to_unsigned y) w)
        as [-> _].
      rewrite list_lookup_fmap.
      destruct (controls w !! i) as [c|] eqn:Hc; [|done].
      intros [= <-]. unfold after_click.
      by rewrite (negative_point_outside (_area c) x y (Hall i c Hc) Hx Hy Hneg).
Qed.

(** Only a pointer-down sets a pressed flag or changes a focused flag:
    when the closures leave both flags alone, any other message leaves every
    focused flag as it was and sets no pressed flag. *)
Theorem only_pointer_down_presses_or_focuses (message : Message)
        (w : World U) :
  preserves (@_onFocus U) -> preserves (@_onClick U) ->
  is_pointer_down message = false ->
  _onFocus <$> controls (WndProc message w) = _onFocus <$> controls w
  /\ (forall i c', controls (WndProc message w) !! i = Some c' ->
        _onClick c' = true ->
        exists c, controls w !! i = Some c /\ _onClick c = true).
Proof.
  intros Hpf Hpk Hm.
  assert (Hkeep : _onClick <$> controls (WndProc message w)
                  = _onClick <$> controls w ->
                  forall i c', controls (WndProc message w) !! i = Some c' ->
                    _onClick c' = true ->
                    exists c, controls w !! i = Some c /\ _onClick c = true).
  { intros Heq i c' Hi Hk.
    assert (Hl : (_onClick <$> controls w) !! i = Some (_onClick c'))
      by (by rewrite <- Heq, list_lookup_fmap, Hi).
    rewrite list_lookup_fmap in Hl.
    destruct (controls w !! i) as [c|]; [|done].
    exists c. split; [done|]. inversion Hl. congruence. }
  destruct message as [|x y|x y| |ch|key]; cbn [WndProc]; try done.
  - destruct (DrawRectangle_spec w) as [Hc _]. cbn [WndProc] in Hkeep.
    rewrite Hc in *. split; [done|]. by apply Hkeep.
  - cbn [WndProc] in Hkeep.
    destruct (Container_OnHover_spec (to_unsigned x) (to_unsigned y) w)
      as [Hc _].
    rewrite Hc in *. split; [by apply fmap_fmap_frame|].
    apply Hkeep. by apply fmap_fmap_frame.
  - split; [by apply Container_LeaveClick_frame|].
    intros i c' Hi Hk.
    destruct (Container_LeaveClick_spec w Hpk) as [Hc _].
    assert (Hl : (_onClick <$> controls (Container_LeaveClick w)) !! i
                 = Some (_onClick c')) by (by rewrite list_lookup_fmap, Hi).
    rewrite Hc, list_lookup_fmap in Hl.
    destruct (controls w !! i); inversion Hl; congruence.
  - cbn [WndProc] in Hkeep. split.
    + apply Container_OnChar_frame; [done|].
      intros a c. unfold push_back. by destruct (derived c).
    + apply Hkeep. apply Container_OnChar_frame; [done|].
      intros a c. unfold push_back. by destruct (derived c).
  - cbn [WndProc] in Hkeep. split.
    + apply Container_OnKeyDown_frame; [done|].
      intros c. unfold pop_back. by destruct (derived c).
    + apply Hkeep. apply Container_OnKeyDown_frame; [done|].
      intros c. unfold pop_back. by destruct (derived c).
Qed.

End EdgesMore.

(** ** Renderer resources *)

Section Resources.

Lemma FAILED_lor (a b : Z) : FAILED (Z.lor a b) = FAILED a || FAILED b.
Proof.
  unfold FAILED. apply eq_true_iff_eq.
  rewrite orb_true_iff, !Z.ltb_lt. apply Z.lor_neg.
Qed.

(** [CreateD2DResource], entered without a render target, shows one
    message box, that of the first stage that fails, and none when every
    stage succeeds; the brush stage fails exactly when at least one of the
    four brush creations fails, and all four are attempted; the render target
    exists afterwards exactly when the factory and the render target were
    created, whatever became of the brushes. *)
Theorem CreateD2DResource_reports_first_failure (api : ApiResults) :
  boxes (CreateD2DResource api false).2
  = (if FAILED (api D2D1CreateFactory) then ["Create D2D factory failed!"]
     else if FAILED (api CreateHwndRenderTarget)
          then ["Create render target failed!"]
     else if existsb (fun b => FAILED (api (CreateSolidColorBrush b)))
                     created_brushes
          then ["Create brush failed!"]
     else [])%string
  /\ (CreateD2DResource api false).1
     = negb (FAILED (api D2D1CreateFactory))
       && negb (FAILED (api CreateHwndRenderTarget))
  /\ (FAILED (api D2D1CreateFactory) = false ->
      FAILED (api CreateHwndRenderTarget) = false ->
      forall b, In b created_brushes ->
        length (List.filter
                  (fun c => match c with
                            | CreateSolidColorBrush b' =>
                                if decide (b = b') then true else false
                            | _ => false
                            end)
                  (CreateD2DResource api false).2) = 1%nat).
Proof.
  unfold CreateD2DResource. cbn [negb].
  destruct (FAILED (api D2D1CreateFactory)) eqn:Hf; [done|].
  destruct (FAILED (api CreateHwndRenderTarget)) eqn:Ht; [done|].
  rewrite !FAILED_lor. cbn [existsb created_brushes fst snd].
  rewrite orb_false_r, !orb_assoc.
  split; [|split; [done|]].
  - unfold boxes. rewrite flat_map_app. cbn.
    by destruct (_ || _ || _ || _).
  - intros _ _ b Hb. rewrite List.filter_app, length_app.
    assert (Hbox : forall l : list ApiCall,
               l = [MessageBoxW "Create brush failed!"] \/ l = [] ->
               length (List.filter
                         (fun c => match c with
                                   | CreateSolidColorBrush b' =>
                                       if decide (b = b') then true else false
                                   | _ => false
                                   end) l) = 0%nat)
      by (intros l [-> | ->]; done).
    rewrite (Hbox (if _ || _ || _ || _ then _ else _))
      by (destruct (_ || _ || _ || _); auto).
    cbn in Hb. destruct Hb as [<-|[<-|[<-|[<-|[]]]]]; reflexivity.
Qed.

(** Once the render target exists, [CreateD2DResource] calls nothing and
    shows nothing: after a call that created the factory and the render
    target, no later call creates anything, also when the brushes failed;
    after a call in which one of the two failed, the next call starts again
    with the factory. *)
Theorem CreateD2DResource_not_retried (api later : ApiResults) :
  CreateD2DResource later true = (true, [])
  /\ (FAILED (api D2D1CreateFactory) = false ->
      FAILED (api CreateHwndRenderTarget) = false ->
      CreateD2DResource later (CreateD2DResource api false).1 = (true, []))
  /\ (FAILED (api D2D1CreateFactory) = true
      \/ FAILED (api CreateHwndRenderTarget) = true ->
      head (CreateD2DResource later (CreateD2DResource api false).1).2
      = Some D2D1CreateFactory).
Proof.
  split; [done|]. split.
  - intros Hf Ht. unfold CreateD2DResource at 2. cbn [negb]. by rewrite Hf, Ht.
  - intros Hfail.
    assert (Hrt : (CreateD2DResource api false).1 = false).
    { unfold CreateD2DResource. cbn [negb].
      destruct (FAILED (api D2D1CreateFactory)); [done|].
      destruct Hfail as [Hf|Ht]; [done|]. by rewrite Ht. }
    rewrite Hrt. unfold CreateD2DResource. cbn [negb].
    destruct (FAILED (later D2D1CreateFactory)); [done|].
    by destruct (FAILED (later CreateHwndRenderTarget)).
Qed.

(** The [TextWriter] constructor completes exactly when none of its four
    calls fails; otherwise it stops at the first call that fails, which is
    the last call made, and the message of the exception names that call. *)
Theorem TextWriter_reports_first_failure (api : ApiResults) :
  ((TextWriter_new api).2 = inr tt <->
   forall c, In c [DWriteCreateFactory; CreateTextFormat; SetTextAlignment;
                   SetParagraphAlignment] -> FAILED (api c) = false)
  /\ (forall message, (TextWriter_new api).2 = inl message ->
        exists c,
          last (TextWriter_new api).1 = Some c
          /\ FAILED (api c) = true
          /\ (forall c', In c' (removelast (TextWriter_new api).1) ->
                FAILED (api c') = false)
          /\ String.prefix
               ("Initialize TextWriter failed: " ++ step_name c)%string
               message = true).
Proof.
  unfold TextWriter_new. split; [split|].
  - intros Hok c Hc.
    destruct (FAILED (api DWriteCreateFactory)) eqn:H1; [discriminate Hok|].
    destruct (FAILED (api CreateTextFormat)) eqn:H2; [discriminate Hok|].
    destruct (FAILED (api SetTextAlignment)) eqn:H3; [discriminate Hok|].
    destruct (FAILED (api SetParagraphAlignment)) eqn:H4; [discriminate Hok|].
    cbn in Hc. destruct Hc as [<-|[<-|[<-|[<-|[]]]]]; assumption.
  - intros Hall.
    rewrite (Hall DWriteCreateFactory), (Hall CreateTextFormat),
      (Hall SetTextAlignment), (Hall SetParagraphAlignment)
      by (cbn; tauto).
    reflexivity.
  - intros message.
    destruct (FAILED (api DWriteCreateFactory)) eqn:H1;
      [|destruct (FAILED (api CreateTextFormat)) eqn:H2;
        [|destruct (FAILED (api SetTextAlignment)) eqn:H3;
          [|destruct (FAILED (api SetParagraphAlignment)) eqn:H4]]];
      cbn [fst snd]; intros [= <-].
    + exists DWriteCreateFactory. repeat split; try done.
    + exists CreateTextFormat. repeat split; try done.
      all: cbn; intros c' Hc'; intuition (subst; assumption).
    + exists SetTextAlignment. repeat split; try done.
      all: cbn; intros c' Hc'; intuition (subst; assumption).
    + exists SetParagraphAlignment. repeat split; try done.
      all: cbn; intros c' Hc'; intuition (subst; assumption).
Qed.

End Resources.

(** ** Brushes in use *)

Section BrushesMore.

Context {U : Type} `{!Closures U}.



End BrushesMore.

(** ** Instances of the further properties *)

Section MoreInstances.

Lemma Lambda_preserves_static_part : preserves (@static_part Lambda).
Proof.
  intros [input output] cs. cbn. unfold Label_Text.
  apply fmap_alter_frame. intros c. by destruct c as [? ? ? ? ? ? []].
Qed.


Lemma nested_bounds_hit_together_witness :
  within ui_area_input
         (RectF (Float32.lit 10) (Float32.lit 10)
                (Float32.lit 200) (Float32.lit 100))
  /\ PointInRectangle ui_area_input (Point2U 30 30) = true
  /\ PointInRectangle (RectF (Float32.lit 10) (Float32.lit 10)
                             (Float32.lit 200) (Float32.lit 100))
                      (Point2U 30 30) = true.
Proof.
  assert (Hw : within ui_area_input
                 (RectF (Float32.lit 10) (Float32.lit 10)
                        (Float32.lit 200) (Float32.lit 100)))
    by (repeat split; vm_compute; discriminate).
  split; [exact Hw|]. split; [reflexivity|].
  apply (nested_bounds_hit_together ui_area_input _ (Point2U 30 30)).
  - repeat split; reflexivity.
  - repeat split; reflexivity.
  - split; cbn; lia.
  - exact Hw.
  - reflexivity.
Defined.

Lemma pointer_up_idempotent_witness :
  preserves (@_onClick Lambda)
  /\ Container_LeaveClick
       (Container_LeaveClick (WndProc (WM_LBUTTONDOWN 30 30) ui_world))
     = Container_LeaveClick (WndProc (WM_LBUTTONDOWN 30 30) ui_world).
Proof.
  assert (Hp : preserves (@_onClick Lambda))
    by (apply Lambda_preserves; reflexivity).
  split; [exact Hp|].
  apply (pointer_up_idempotent (WndProc (WM_LBUTTONDOWN 30 30) ui_world) Hp).
Defined.


Lemma messages_keep_static_parts_witness :
  preserves (@static_part Lambda)
  /\ static_part <$> controls (run type_cat ui_world)
     = static_part <$> controls ui_world
  /\ length (controls (run type_cat ui_world)) = length (controls ui_world).
Proof.
  split; [exact Lambda_preserves_static_part|].
  apply (messages_keep_static_parts type_cat ui_world
           Lambda_preserves_static_part).
Defined.

Lemma typing_appends_witness :
  shown ui_input
    (run ([] ++ WM_LBUTTONDOWN 30 30
             :: (WM_CHAR <$> [wchar "c"; wchar "a"])) ui_world)
  = Some (TextBox_Text ui_input (controls (run [] ui_world))
          ++ (to_wchar_t <$> [wchar "c"; wchar "a"]))
  /\ shown ui_output
       (run ([] ++ WM_LBUTTONDOWN 30 30
                :: (WM_CHAR <$> [wchar "c"; wchar "a"])) ui_world)
     = Some (rev (TextBox_Text ui_input (controls (run [] ui_world))
                  ++ (to_wchar_t <$> [wchar "c"; wchar "a"]))).
Proof.
  assert (Hin : PointInRectangle ui_area_input
                  (Point2U (to_unsigned 30) (to_unsigned 30)) = true)
    by (vm_compute; reflexivity).
  assert (Hchs : Forall (fun ch => to_wchar_t ch <> BS) [wchar "c"; wchar "a"])
    by (repeat constructor; discriminate).
  exact (typing_appends [] 30 30 [wchar "c"; wchar "a"] Hin Hchs).
Defined.

Lemma backspace_removes_last_witness :
  shown ui_input
    (run (type_cat ++ WM_LBUTTONDOWN 30 30
                   :: concat (replicate 1 backspace_key)) ui_world)
  = Some (take (length (TextBox_Text ui_input
                          (controls (run type_cat ui_world))) - 1)
               (TextBox_Text ui_input (controls (run type_cat ui_world)))).
Proof.
  assert (Hin : PointInRectangle ui_area_input
                  (Point2U (to_unsigned 30) (to_unsigned 30)) = true)
    by (vm_compute; reflexivity).
  exact (proj1 (backspace_removes_last type_cat 30 30 1 Hin)).
Defined.

Lemma unfocused_text_box_ignores_input_witness :
  shown ui_input (run [WM_CHAR (wchar "c"); WM_KEYDOWN VK_BACK] ui_world)
  = Some [].
Proof.
  exact (proj1 (unfocused_text_box_ignores_input
                  [WM_CHAR (wchar "c"); WM_KEYDOWN VK_BACK] eq_refl)).
Defined.

Lemma negative_coordinates_hit_nothing_witness :
  below_2_31 ui_area_input
  /\ PointInRectangle ui_area_input
       (Point2U (to_unsigned (-1)) (to_unsigned 30)) = false.
Proof.
  assert (Hb : below_2_31 ui_area_input)
    by (repeat split; vm_compute; discriminate).
  split; [exact Hb|].
  assert (Hx : (- 2 ^ 31 <= -1 < 2 ^ 31)%Z) by lia.
  assert (Hy : (- 2 ^ 31 <= 30 < 2 ^ 31)%Z) by lia.
  assert (Hneg : (-1 < 0)%Z \/ (30 < 0)%Z) by (left; lia).
  exact (proj1 (negative_coordinates_hit_nothing (-1) 30
                  (@empty_world Lambda) Hx Hy Hneg) ui_area_input Hb).
Defined.

Lemma only_pointer_down_presses_or_focuses_witness :
  preserves (@_onFocus Lambda) /\ preserves (@_onClick Lambda)
  /\ _onFocus <$> controls (WndProc (WM_CHAR (wchar "c"))
                              (run type_cat ui_world))
     = _onFocus <$> controls (run type_cat ui_world).
Proof.
  assert (Hf : preserves (@_onFocus Lambda))
    by (apply Lambda_preserves; reflexivity).
  assert (Hk : preserves (@_onClick Lambda))
    by (apply Lambda_preserves; reflexivity).
  split; [exact Hf|]. split; [exact Hk|].
  exact (proj1 (only_pointer_down_presses_or_focuses (WM_CHAR (wchar "c"))
                  (run type_cat ui_world) Hf Hk eq_refl)).
Defined.


Lemma keyboard_follows_pointer_down_witness :
  first_hit (controls overlapping_world) (Point2U 120 40) 0
  /\ Container_OnChar (wchar "s") (Container_OnClick 120 40 overlapping_world)
     = call_OnChar 0 (to_wchar_t (wchar "s"))
         (Container_OnClick 120 40 overlapping_world).
Proof.
  assert (Hf : first_hit (controls overlapping_world) (Point2U 120 40) 0).
  { split.
    - eexists. split; [reflexivity|vm_compute; reflexivity].
    - intros j c Hj. lia. }
  split; [exact Hf|].
  exact (proj1 (proj1 (keyboard_follows_pointer_down 120 40 (wchar "s") VK_BACK
                         overlapping_world) 0 Hf)).
Defined.

Lemma other_keys_and_backspace_char_ignored_witness :
  to_unsigned 65 <> VK_BACK
  /\ controls (Container_OnKeyDown 65 (run type_cat ui_world))
     = controls (run type_cat ui_world).
Proof.
  assert (Hk : to_unsigned 65 <> VK_BACK) by (vm_compute; discriminate).
  split; [exact Hk|].
  exact (proj1 (proj1 (other_keys_and_backspace_char_ignored (wchar "s") 65
                         (run type_cat ui_world)) Hk)).
Defined.

End MoreInstances.
